(** * Grid clustering of radar markers

    A shallow embedding of [src/components/MapView.tsx]: the marker
    clustering [clusterNearbyMarkers] (lines 796-853) with the render policy
    [shouldUseCluster] / [locationsToRender] (lines 792, 988-1005), and,
    around it, what the marker renderer computes from a record (lines
    1181-1200), the points of the 3D globe (lines 263-277), the coordinate
    search (lines 956-972), the text search (lines 934-944) and the list of
    locations (lines 658-764).

    JavaScript numbers are IEEE 754 binary64 values; they are modelled by
    Rocq's primitive [float]s, so every sum, quotient and comparison below
    is the one the engine performs, NaN, infinities and signed zeros
    included.  The zoom level, an integer, is a [Z].  An exception raised by
    the source is a result [None]. *)

From Stdlib Require Import ZArith String Ascii Bool Lia Floats DecimalString.
From Stdlib Require Import List Permutation.
Import ListNotations.

#[local] Set Warnings "-inexact-float,-register-all".
#[local] Open Scope string_scope.
#[local] Open Scope list_scope.

(** ** The ECMAScript operations the component calls *)

Module JS.

#[local] Open Scope float_scope.

(** The Number an integer converts to: the nearest binary64 value
    (exact below 2^53, so exact on every array length). *)
Definition Number_of_Z (z : Z) : float :=
  SF2Prim (binary_normalize prec emax z 0 false).

Definition Number_of_nat (n : nat) : float := Number_of_Z (Z.of_nat n).

(** [ToBoolean] on a Number: [+0], [-0] and [NaN] are falsy. *)
Definition ToBoolean (x : float) : bool := negb (is_nan x || is_zero x).

(** [x || 0] for [x : number | undefined]. *)
Definition or_zero (x : option float) : float :=
  match x with
  | Some v => if ToBoolean v then v else 0
  | None => 0
  end.

(** [Math.floor]: NaN, the infinities and both zeros are returned as they
    are, and so is a finite value with a non-negative exponent, which is
    an integer already.  Otherwise [x = (-1)^s * m * 2^e] with [e < 0],
    and the floor is the quotient of [m] by [2^-e], moved one further
    from zero for a negative [x] with a remainder. *)
Definition Math_floor (x : float) : float :=
  match Prim2SF x with
  | S754_finite s m e =>
      if (0 <=? e)%Z then x
      else
        let q := Z.shiftr (Zpos m) (- e) in
        let exact := (Z.shiftl q (- e) =? Zpos m)%Z in
        if s then - Number_of_Z (if exact then q else q + 1)
        else Number_of_Z q
  | _ => x
  end.

(** The loop of [Math.max] (ECMA-262, 21.3.2.24 step 4): a NaN argument
    makes the result NaN, [+0] is larger than [-0]. *)
Fixpoint max_loop (highest : float) (coerced : list float) : float :=
  match coerced with
  | [] => highest
  | number :: rest =>
      if is_nan number then nan
      else if Leibniz.eqb number 0 && Leibniz.eqb highest (-0)
           then max_loop number rest
      else if highest <? number then max_loop number rest
      else max_loop highest rest
  end.

(** [Math.max(...xs)]; without arguments it is [-Infinity]. *)
Definition Math_max (xs : list float) : float := max_loop neg_infinity xs.

(** The loop of [Math.min] (21.3.2.25): [-0] is smaller than [+0]. *)
Fixpoint min_loop (lowest : float) (coerced : list float) : float :=
  match coerced with
  | [] => lowest
  | number :: rest =>
      if is_nan number then nan
      else if Leibniz.eqb number (-0) && Leibniz.eqb lowest 0
           then min_loop number rest
      else if number <? lowest then min_loop number rest
      else min_loop lowest rest
  end.

(** [Math.min(...xs)]; without arguments it is [+Infinity]. *)
Definition Math_min (xs : list float) : float := min_loop infinity xs.

(** [Math.pow(2, k)] for an integer [k]: the power of two itself,
    [Infinity] from [k = 1024] on. *)
Definition Math_pow2 (k : Z) : float := Z.ldexp 1 k.

(** An array length inside a template literal: its decimal digits. *)
Definition String_of_nat (n : nat) : string :=
  NilEmpty.string_of_uint (Nat.to_uint n).

End JS.

Import JS.

(** ** Data model *)

(** [interface Location] (lines 55-67).  An optional field is an [option];
    [clusterSize] is only ever written with an array length and is kept as
    a [nat]. *)
Inductive Location : Type := mkLocation {
  id : string;
  name : string;
  lat : float;
  lng : float;
  category : string;
  reflectivity : option float;
  rainfall_rate : option float;
  altitude : option float;
  clusterSize : option nat;
  clusterPoints : option (list Location);
  description : option string
}.

(** [sampleLocations] (lines 89-140), the fallback data of the component. *)
Definition sampleLocations : list Location := [
  {| id := "sample_1"; name := "Kolkata Weather Station";
     lat := 22.5726; lng := 88.3639; category := "high_rain";
     reflectivity := Some 45.2%float; rainfall_rate := Some 12.5%float;
     altitude := Some 6%float;
     clusterSize := None; clusterPoints := None; description := None |};
  {| id := "sample_2"; name := "Howrah Station";
     lat := 22.5958; lng := 88.2636; category := "medium_rain";
     reflectivity := Some 32.1%float; rainfall_rate := Some 5.2%float;
     altitude := Some 8%float;
     clusterSize := None; clusterPoints := None; description := None |};
  {| id := "sample_3"; name := "Salt Lake Station";
     lat := 22.5744; lng := 88.4326; category := "low_rain";
     reflectivity := Some 18.5%float; rainfall_rate := Some 0.8%float;
     altitude := Some 4%float;
     clusterSize := None; clusterPoints := None; description := None |};
  {| id := "sample_4"; name := "Jadavpur Station";
     lat := 22.4987; lng := 88.3731; category := "medium_rain";
     reflectivity := Some 28.7%float; rainfall_rate := Some 3.1%float;
     altitude := Some 12%float;
     clusterSize := None; clusterPoints := None; description := None |};
  {| id := "sample_5"; name := "Dumdum Station";
     lat := 22.6405; lng := 88.4169; category := "high_rain";
     reflectivity := Some 52.3%float; rainfall_rate := Some 18.9%float;
     altitude := Some 5%float;
     clusterSize := None; clusterPoints := None; description := None |}
].

(** The [clusters] object of line 811: string keys that are never array
    indices (each holds an underscore), so [Object.values] lists the buckets
    in the order in which their keys were first written. *)
Definition Clusters : Type := list (string * list Location).

(** Lines 819-820: [if (!clusters[key]) clusters[key] = [];
    clusters[key].push(location)].  A bucket is an array, hence truthy, so
    the test only asks whether the key is present. *)
Fixpoint push (clusters : Clusters) (key : string) (location : Location)
  : Clusters :=
  match clusters with
  | [] => [(key, [location])]
  | (k, bucket) :: rest =>
      if String.eqb k key then (k, bucket ++ [location]) :: rest
      else (k, bucket) :: push rest key location
  end.

(** Lines 813-821: the [forEach] that files every location under its key. *)
Definition fill (key : Location -> string) (locations : list Location)
  (clusters : Clusters) : Clusters :=
  fold_left (fun clusters location => push clusters (key location) location)
    locations clusters.

Definition Object_values (clusters : Clusters) : list (list Location) :=
  map snd clusters.

(** [xs.map(f).flat()] for a callback that may raise. *)
Fixpoint map_flat {A B : Type} (f : A -> option (list B)) (xs : list A)
  : option (list B) :=
  match xs with
  | [] => Some []
  | x :: rest =>
      match f x with
      | None => None
      | Some ys =>
          match map_flat f rest with
          | None => None
          | Some zs => Some (ys ++ zs)
          end
      end
  end.

(** ** Grid size (lines 799-808) *)

Section GridSize.

#[local] Open Scope float_scope.

Variable locations : list Location.
Variable zoomLevel : Z.

Definition latRange : float :=
  let lats := map lat locations in
  Math_max lats - Math_min lats.

Definition lngRange : float :=
  let lngs := map lng locations in
  Math_max lngs - Math_min lngs.

Definition baseGridSize : float :=
  Math_max [latRange; lngRange] / (if (12 <=? zoomLevel)%Z then 50 else 30).

Definition zoomFactor : float := Math_pow2 (Z.max 0 (zoomLevel - 8)).

Definition gridSize : float := Math_max [0.0005; baseGridSize / zoomFactor].

End GridSize.

(** ** Partition and aggregation (lines 811-852) *)

Section Clustering.

(** [Number::toString] and [Number.prototype.toFixed], the two number
    printers of the engine, are taken as they come: nothing below depends
    on the digits they produce. *)
Variable Number_toString : float -> string.
Variable Number_toFixed : float -> nat -> string.

#[local] Open Scope float_scope.

(** Lines 815-817. *)
Definition cellKey (gridSize : float) (location : Location) : string :=
  let gridX := Math_floor (lat location / gridSize) in
  let gridY := Math_floor (lng location / gridSize) in
  (Number_toString gridX ++ "_" ++ Number_toString gridY)%string.

(** Lines 808-821: the [clusters] object once the [forEach] is over. *)
Definition partition (locations : list Location) (zoomLevel : Z) : Clusters :=
  let gridSize := gridSize locations zoomLevel in
  fill (cellKey gridSize) locations [].

(** Lines 829-848: the cluster representative.  [cluster[0].id] raises a
    TypeError on an empty array. *)
Definition clusterItem (cluster : list Location) : option Location :=
  let len := Number_of_nat (length cluster) in
  let avgLat := fold_left (fun sum loc => sum + lat loc) cluster 0 / len in
  let avgLng := fold_left (fun sum loc => sum + lng loc) cluster 0 / len in
  let avgReflectivity :=
    fold_left (fun sum loc => sum + or_zero (reflectivity loc)) cluster 0 / len in
  let avgRainfall :=
    fold_left (fun sum loc => sum + or_zero (rainfall_rate loc)) cluster 0 / len in
  let avgAltitude :=
    fold_left (fun sum loc => sum + or_zero (altitude loc)) cluster 0 / len in
  match nth_error cluster 0 with
  | None => None
  | Some first =>
      Some {|
        id := ("cluster_" ++ id first ++ "_" ++ String_of_nat (length cluster))%string;
        name := ("Cluster (" ++ String_of_nat (length cluster) ++ " points)")%string;
        description :=
          Some ("Avg Reflectivity: " ++ Number_toFixed avgReflectivity 1
                ++ "dBZ, Avg Rainfall: " ++ Number_toFixed avgRainfall 1
                ++ "mm/h")%string;
        lat := avgLat;
        lng := avgLng;
        category := "cluster";
        reflectivity := Some avgReflectivity;
        rainfall_rate := Some avgRainfall;
        altitude := Some avgAltitude;
        clusterSize := Some (length cluster);
        clusterPoints := Some cluster
      |}
  end.

(** Lines 823-848: the callback mapped over the buckets.  Its result is
    what [.flat()] leaves of it: the one point [cluster[0]], the points of
    the array [cluster.map(point => point)], or the one cluster record. *)
Definition clusterOrPoints (zoomLevel : Z) (cluster : list Location)
  : option (list Location) :=
  if (length cluster =? 1)%nat
     || ((12 <=? zoomLevel)%Z && (length cluster <=? 3)%nat)
  then
    if (length cluster =? 1)%nat
    then option_map (fun point => [point]) (nth_error cluster 0)
    else Some cluster
  else option_map (fun item => [item]) (clusterItem cluster).

(** Lines 796-853.  The default [zoomLevel = 5] is never used: the one
    call site passes [mapZoom]. *)
Definition clusterNearbyMarkers (locations : list Location) (zoomLevel : Z)
  : option (list Location) :=
  let clusters := partition locations zoomLevel in
  map_flat (clusterOrPoints zoomLevel) (Object_values clusters).

(** ** Render policy (lines 792, 988-1005) *)

Definition shouldUseCluster (filteredLocations : list Location) : bool :=
  (100 <? length filteredLocations)%nat.

(** The block of lines 991-997 computes two spreads it never reads. *)
Definition locationsToRender (filteredLocations : list Location) (mapZoom : Z)
  : option (list Location) :=
  let locations := filteredLocations in
  if shouldUseCluster filteredLocations && (100 <? length locations)%nat
  then clusterNearbyMarkers locations mapZoom
  else Some locations.

End Clustering.

(** ** What the marker renderer reads (lines 1172-1200) *)

(** Lines 1175-1179: the test that a location passes to get a marker.  The
    coordinates of a record are numbers by their type, which leaves the two
    [isNaN] tests. *)
Definition validCoordinates (location : Location) : bool :=
  negb (is_nan (lat location) || is_nan (lng location)).

(** Lines 1172-1179: the callback returns [null] for a location that fails
    the test, and nothing is drawn for it. *)
Definition drawnMarkers (locationsToRender : list Location) : list Location :=
  filter validCoordinates locationsToRender.

(** Line 1183: [location.clusterSize && location.clusterSize > 1]. *)
Definition isCluster (location : Location) : bool :=
  match clusterSize location with
  | Some n => negb (n =? 0)%nat && (1 <? n)%nat
  | None => false
  end.

Section Markers.

(** [Math.log10], which the engine only approximates, is taken as it comes. *)
Variable Math_log10 : float -> float.

(** Lines 1181, 1196-1200. *)
Definition markerRadius (location : Location) : float :=
  let intensity := or_zero (rainfall_rate location) in
  let radius := Math_max [4; Math_min [10; 5 + intensity * 2]]%float in
  if isCluster location then
    let size :=
      match clusterSize location with
      | Some n => if (n =? 0)%nat then 1%float else Number_of_nat n
      | None => 1%float
      end in
    Math_max [4; Math_min [15; 4 + Math_log10 size * 2]]%float
  else radius.

End Markers.

(** ** The 3D globe (lines 263-277) *)

Module Globe.

Record Point : Type := mkPoint {
  lat : float;
  lng : float;
  altitude : float;
  reflectivity : float;
  rainfall_rate : float;
  name : string
}.

(** Lines 263-270 (again at 308-315 and 352-359): the points handed to the
    globe. *)
Definition pointsData (locations : list Location) : list Point :=
  map (fun location =>
         let 'mkLocation _ name lat lng _ reflectivity rainfall_rate altitude _ _ _ :=
           location in
         {| lat := lat;
            lng := lng;
            altitude := or_zero altitude;
            reflectivity := or_zero reflectivity;
            rainfall_rate := or_zero rainfall_rate;
            name := name |})
      locations.

(** Lines 271-277. *)
Definition pointAltitude (d : Point) : float :=
  let altitude := or_zero (Some (altitude d)) in
  Math_max [0.001; altitude * 0.00002]%float.

End Globe.

(** ** Coordinate search (lines 956-972) *)

(** The two pieces of state the handler writes. *)
Record SearchState : Type := mkSearchState {
  targetCoordinates : option (float * float);
  error : option string
}.

Section CoordinateSearch.

(** [parseFloat], the engine's parser, is taken as it comes. *)
Variable parseFloat : string -> float.

Definition handleCoordinateSearch (latitude longitude : string)
  (state : SearchState) : SearchState :=
  let lat := parseFloat latitude in
  let lng := parseFloat longitude in
  if is_nan lat || is_nan lng then
    {| targetCoordinates := targetCoordinates state;
       error := Some "Please enter valid coordinates" |}
  else if (lat <? -90)%float || (90 <? lat)%float
          || (lng <? -180)%float || (180 <? lng)%float then
    {| targetCoordinates := targetCoordinates state;
       error := Some "Coordinates out of range" |}
  else
    {| targetCoordinates := Some (lat, lng); error := None |}.

End CoordinateSearch.

(** ** Text search (lines 934-944) *)

Section TextSearch.

(** The string methods of the engine are taken as they come. *)
Variable trim : string -> string.
Variable toLowerCase : string -> string.
Variable includes : string -> string -> bool.

(** The body of the debounced effect: the next [filteredLocations].  Only
    the empty string is falsy. *)
Definition searchFilter (searchTerm : string) (allLocations : list Location)
  : list Location :=
  if String.eqb (trim searchTerm) "" then allLocations
  else
    filter (fun location =>
              includes (toLowerCase (name location)) (toLowerCase searchTerm)
              || includes (toLowerCase (category location)) (toLowerCase searchTerm))
      allLocations.

End TextSearch.

(** ** The list of locations (lines 658-764) *)

Definition displayLimit : nat := 50.

(** Line 665: [showAll ? locations : locations.slice(0, displayLimit)]. *)
Definition displayedLocations (showAll : bool) (locations : list Location)
  : list Location :=
  if showAll then locations else firstn displayLimit locations.

(** Line 691: the button that toggles [showAll] is there. *)
Definition showAllButton (locations : list Location) : bool :=
  (displayLimit <? length locations)%nat.

(** Line 756: the notice "Showing 50 of N points" is there. *)
Definition showingNotice (showAll : bool) (locations : list Location) : bool :=
  negb showAll && (displayLimit <? length locations)%nat.

(** ** Vocabulary of the statements *)

(** A GeoPoint: an input record, which carries neither of the two cluster
    fields. *)
Definition GeoPoint (location : Location) : Prop :=
  clusterSize location = None /\ clusterPoints location = None.

(** The input points an item of the render list stands for: the member list
    of a cluster, the item itself otherwise. *)
Definition members (item : Location) : list Location :=
  if isCluster item then
    match clusterPoints item with Some points => points | None => [] end
  else [item].

Definition recovered (items : list Location) : list Location :=
  flat_map members items.

(** The first bucket stored under a key. *)
Fixpoint lookup (clusters : Clusters) (key : string) : option (list Location) :=
  match clusters with
  | [] => None
  | (k, bucket) :: rest => if String.eqb k key then Some bucket else lookup rest key
  end.

(** The integers from 0 up to [n - 1]. *)
Definition upto (n : nat) : list Z := map Z.of_nat (seq 0 n).

(** The keys of a list in the order of their first occurrence, those
    already [seen] left out. *)
Fixpoint first_seen (keys seen : list string) : list string :=
  match keys with
  | [] => []
  | k :: rest =>
      if existsb (fun k0 => String.eqb k0 k) seen then first_seen rest seen
      else k :: first_seen rest (seen ++ [k])
  end.

(** The number of data points a marker stands for: what the popup of a
    cluster reports (line 1225), one for any other marker. *)
Definition represented (item : Location) : nat :=
  if isCluster item then
    match clusterSize item with Some n => n | None => 0 end
  else 1.

Section Emitted.

Variable Number_toFixed : float -> nat -> string.

(** What the callback returns for a bucket: the bucket itself, point by
    point, or the one record that stands for it. *)
Inductive emitted (zoomLevel : Z) (cluster : list Location)
  : list Location -> Prop :=
| emitted_points :
    length cluster = 1 \/ (12 <= zoomLevel)%Z /\ length cluster <= 3 ->
    emitted zoomLevel cluster cluster
| emitted_cluster (item : Location) :
    clusterItem Number_toFixed cluster = Some item ->
    2 <= length cluster ->
    (zoomLevel < 12)%Z \/ 4 <= length cluster ->
    emitted zoomLevel cluster [item].

End Emitted.



(** The unweighted arithmetic mean, as the engine computes it: the values
    are added one after the other, from 0, and the sum is divided by their
    number. *)
Definition mean (values : list float) : float :=
  (fold_left add values 0 / Number_of_nat (length values))%float.

(** A measurement with 0 in the place of a missing one. *)
Definition value_or_zero (x : option float) : float :=
  match x with
  | Some v => v
  | None => 0%float
  end.

(** A measurement with 0 in the place of a missing one and of one that is
    not a Number. *)
Definition number_or_zero (x : option float) : float :=
  match x with
  | Some v => if is_nan v then 0%float else v
  | None => 0%float
  end.

(** ** Printers and data for the examples *)

(** Two printers to run the model with.  [toString] prints the integral
    part of a Number in decimal, which is what [Number::toString] prints for
    an integral Number below 2^53, as every cell index of the examples is;
    it tells any two integral Numbers apart, as [Number::toString] does.
    [toFixed] follows [Number.prototype.toFixed] (ECMA-262, 21.1.3.3) below
    10^21 and falls back on [toString] from there on. *)
Module Printer.

#[local] Open Scope string_scope.

Definition digits (n : Z) : string :=
  NilZero.string_of_uint (N.to_uint (Z.to_N n)).

Definition integral (m : Z) (e : Z) : Z :=
  if (0 <=? e)%Z then Z.shiftl m e else Z.shiftr m (- e).

Definition toString (x : float) : string :=
  match Prim2SF x with
  | S754_nan => "NaN"
  | S754_zero _ => "0"
  | S754_infinity s => (if s then "-" else "") ++ "Infinity"
  | S754_finite s m e => (if s then "-" else "") ++ digits (integral (Zpos m) e)
  end.

Fixpoint zeros (k : nat) : string :=
  match k with
  | O => ""
  | S k => "0" ++ zeros k
  end.

Definition toFixed (x : float) (fractionDigits : nat) : string :=
  match Prim2SF x with
  | S754_nan => "NaN"
  | S754_infinity _ => toString x
  | S754_zero _ | S754_finite _ _ _ =>
      let '(s, m, e) :=
        match Prim2SF x with
        | S754_finite s m e => (s, Zpos m, e)
        | _ => (false, 0%Z, 0%Z)
        end in
      if (10 ^ 21 <=? integral m e)%Z then toString x
      else
        let scaled := (m * 10 ^ Z.of_nat fractionDigits)%Z in
        let n :=
          if (0 <=? e)%Z then Z.shiftl scaled e
          else Z.shiftr (2 * scaled + Z.shiftl 1 (- e)) (- e + 1) in
        let ds := digits n in
        let ds := zeros (S fractionDigits - String.length ds) ++ ds in
        let k := String.length ds in
        (if s then "-" else "")
        ++ (if (fractionDigits =? 0)%nat then ds
            else substring 0 (k - fractionDigits) ds ++ "."
                 ++ substring (k - fractionDigits) fractionDigits ds)
  end.

End Printer.

(** Two more stations in the grid cell of the Kolkata station at zoom 12. *)
Definition nearKolkata : list Location := [
  {| id := "near_1"; name := "Kolkata North";
     lat := 22.5727; lng := 88.3636; category := "high_rain";
     reflectivity := Some 40%float; rainfall_rate := Some 10%float;
     altitude := None;
     clusterSize := None; clusterPoints := None; description := None |};
  {| id := "near_2"; name := "Kolkata East";
     lat := 22.5728; lng := 88.3637; category := "high_rain";
     reflectivity := None; rainfall_rate := Some 11%float;
     altitude := Some 7%float;
     clusterSize := None; clusterPoints := None; description := None |}
].

Definition stations : list Location := sampleLocations ++ nearKolkata.

(** More than a hundred candidate points: the seven stations, fifteen times. *)
Definition crowd : list Location := concat (repeat stations 15).

(** Three gauges on one site, the third one without a reflectivity. *)
Definition gauge (n : string) (refl : option float) (rain : float) : Location :=
  {| id := ("gauge_" ++ n)%string; name := ("Gauge " ++ n)%string;
     lat := 22.5; lng := 88.25; category := "low_rain";
     reflectivity := refl; rainfall_rate := Some rain; altitude := None;
     clusterSize := None; clusterPoints := None; description := None |}.

Definition gauges : list Location := [
  gauge "1" (Some 12%float) 1; gauge "2" (Some 18%float) 2; gauge "3" None 3
].

(** Two gauges on one site, the first one with a reflectivity that is not
    a Number. *)
Definition faulty : list Location := [
  gauge "1" (Some nan) 1; gauge "2" (Some 10%float) 2
].

(** ** The order of the Numbers *)

(** The order of the Numbers, read off three integers: the class (the
    infinities outermost, zero in the middle), then exponent and mantissa,
    both negated for a negative Number. *)
Definition SFkey (x : spec_float) : Z * Z * Z :=
  match x with
  | S754_nan | S754_zero _ => (0, 0, 0)%Z
  | S754_infinity true => (-2, 0, 0)%Z
  | S754_infinity false => (2, 0, 0)%Z
  | S754_finite true m e => (-1, - e, - Zpos m)%Z
  | S754_finite false m e => (1, e, Zpos m)%Z
  end.

Definition lexle (a b : Z * Z * Z) : Prop :=
  let '(a1, a2, a3) := a in
  let '(b1, b2, b3) := b in
  (a1 < b1 \/ a1 = b1 /\ (a2 < b2 \/ a2 = b2 /\ a3 <= b3))%Z.

(** * Properties *)

(** ** Numbers *)

Module NumberFacts.

#[local] Open Scope float_scope.

Lemma SFcompare_antisym (x y : spec_float) :
  SFcompare y x = option_map CompOpp (SFcompare x y).
Proof.
  destruct x as [sx|sx| |sx mx ex], y as [sy|sy| |sy my ey]; simpl;
    try destruct sx; try destruct sy; try reflexivity.
  all: rewrite (Z.compare_antisym ex ey); destruct (ex ?= ey)%Z; simpl;
    try reflexivity.
  all: rewrite (Pos.compare_cont_antisym mx my Eq); simpl;
    rewrite ?CompOpp_involutive; reflexivity.
Qed.

Lemma ltb_asym (x y : float) : (x <? y) = true -> (y <? x) = false.
Proof.
  rewrite !ltb_spec. unfold SFltb.
  rewrite (SFcompare_antisym (Prim2SF x) (Prim2SF y)).
  destruct (SFcompare (Prim2SF x) (Prim2SF y)) as [[]|]; simpl; congruence.
Qed.

Lemma ltb_leb (x y : float) : (x <? y) = true -> (x <=? y) = true.
Proof.
  rewrite ltb_spec, leb_spec. unfold SFltb, SFleb.
  destruct (SFcompare (Prim2SF x) (Prim2SF y)) as [[]|]; congruence.
Qed.

Lemma is_nan_spec (v : float) :
  is_nan v = match Prim2SF v with S754_nan => true | _ => false end.
Proof.
  unfold is_nan. rewrite eqb_spec. unfold SFeqb.
  destruct (Prim2SF v) as [[]|[]| |[] m e]; simpl; try reflexivity.
  all: rewrite Z.compare_refl, Pos.compare_cont_refl; reflexivity.
Qed.

Lemma eqb_zero (v : float) : (v =? 0) = true -> v = 0 \/ v = - 0.
Proof.
  rewrite eqb_spec. intros H. rewrite <- (SF2Prim_Prim2SF v).
  change (Prim2SF 0) with (S754_zero false) in H.
  destruct (Prim2SF v) as [[]|[]| |[] ? ?]; simpl in H; try discriminate;
    [right | left]; reflexivity.
Qed.

(** Adding to [+0] leaves a number other than a zero as it is. *)
Lemma add_zero_l (v : float) :
  is_nan v = false -> is_zero v = false -> 0 + v = v.
Proof.
  intros Hn Hz. apply Prim2SF_inj. rewrite add_spec.
  rewrite is_nan_spec in Hn. unfold is_zero in Hz. rewrite eqb_spec in Hz.
  change (Prim2SF 0) with (S754_zero false) in *.
  destruct (Prim2SF v) as [[]|[]| |[] m e]; simpl in *;
    try discriminate; reflexivity.
Qed.

(** [Math.max(0.0005, x)]. *)
Lemma Math_max_floor (x : float) :
  Math_max [0.0005; x] =
  if is_nan x then nan else if 0.0005 <? x then x else 0.0005.
Proof.
  unfold Math_max. cbn [max_loop].
  change (is_nan 0.0005) with false. cbv iota.
  change (Leibniz.eqb 0.0005 0) with false. cbn [andb].
  change (neg_infinity <? 0.0005) with true. cbv iota.
  change (Leibniz.eqb 0.0005 (-0)) with false.
  rewrite andb_false_r. reflexivity.
Qed.

Lemma ltb_irrefl (x : float) : (x <? x) = false.
Proof.
  destruct (x <? x) eqn:H; [|reflexivity].
  rewrite (ltb_asym x x H) in H. discriminate.
Qed.

Lemma ltb_nan_l (x : float) : (nan <? x) = false.
Proof. rewrite ltb_spec. reflexivity. Qed.

Lemma ltb_nan_r (x : float) : (x <? nan) = false.
Proof.
  rewrite ltb_spec. change (Prim2SF nan) with S754_nan.
  destruct (Prim2SF x) as [[]|[]| |[] m e]; reflexivity.
Qed.

(** Two Numbers, neither of them NaN, are ordered one way or the other. *)
Lemma ltb_false_leb (x y : float) :
  is_nan x = false -> is_nan y = false -> (x <? y) = false -> (y <=? x) = true.
Proof.
  rewrite !is_nan_spec, ltb_spec, leb_spec. unfold SFltb, SFleb.
  rewrite (SFcompare_antisym (Prim2SF x) (Prim2SF y)).
  destruct (Prim2SF x) as [[]|[]| |[] mx ex], (Prim2SF y) as [[]|[]| |[] my ey];
    simpl; try discriminate; try reflexivity; intros _ _.
  all: destruct (ex ?= ey)%Z; simpl; try discriminate; try reflexivity.
  all: destruct (Pos.compare_cont Eq mx my); simpl; try discriminate; reflexivity.
Qed.

Lemma neg_infinity_least (x : float) :
  is_nan x = false -> (neg_infinity <? x) = false -> x = neg_infinity.
Proof.
  rewrite is_nan_spec, ltb_spec. intros Hnan Hlt.
  rewrite <- (SF2Prim_Prim2SF x).
  change (Prim2SF neg_infinity) with (S754_infinity true) in Hlt.
  destruct (Prim2SF x) as [[]|[]| |[] m e]; try discriminate; reflexivity.
Qed.

Lemma infinity_greatest (x : float) :
  is_nan x = false -> (x <? infinity) = false -> x = infinity.
Proof.
  rewrite is_nan_spec, ltb_spec. intros Hnan Hlt.
  rewrite <- (SF2Prim_Prim2SF x).
  change (Prim2SF infinity) with (S754_infinity false) in Hlt.
  destruct (Prim2SF x) as [[]|[]| |[] m e]; try discriminate; reflexivity.
Qed.

(** The first argument of [Math.max] and of [Math.min] replaces the
    starting value. *)
Lemma max_loop_first (x : float) (xs : list float) :
  is_nan x = false -> max_loop neg_infinity (x :: xs) = max_loop x xs.
Proof.
  intros Hnan. cbn [max_loop]. rewrite Hnan.
  change (Leibniz.eqb neg_infinity (-0)) with false. rewrite andb_false_r.
  destruct (neg_infinity <? x) eqn:Hlt; [reflexivity|].
  rewrite (neg_infinity_least x Hnan Hlt). reflexivity.
Qed.

Lemma min_loop_first (x : float) (xs : list float) :
  is_nan x = false -> min_loop infinity (x :: xs) = min_loop x xs.
Proof.
  intros Hnan. cbn [min_loop]. rewrite Hnan.
  change (Leibniz.eqb infinity 0) with false. rewrite andb_false_r.
  destruct (x <? infinity) eqn:Hlt; [reflexivity|].
  rewrite (infinity_greatest x Hnan Hlt). reflexivity.
Qed.

Lemma Math_max_pair (c x : float) :
  is_nan c = false ->
  Math_max [c; x] =
  if is_nan x then nan
  else if Leibniz.eqb x 0 && Leibniz.eqb c (-0) then x
  else if c <? x then x else c.
Proof.
  intros Hc. unfold Math_max. rewrite max_loop_first by assumption. reflexivity.
Qed.

Lemma Math_min_pair (c x : float) :
  is_nan c = false ->
  Math_min [c; x] =
  if is_nan x then nan
  else if Leibniz.eqb x (-0) && Leibniz.eqb c 0 then x
  else if x <? c then x else c.
Proof.
  intros Hc. unfold Math_min. rewrite min_loop_first by assumption. reflexivity.
Qed.

(** [Math.max(c, x)] is not below [c], [Math.min(c, x)] not above it. *)
Lemma Math_max_lower (c x : float) :
  is_nan c = false -> (Math_max [c; x] <? c) = false.
Proof.
  intros Hc. rewrite Math_max_pair by assumption.
  destruct (is_nan x); [apply ltb_nan_l|].
  destruct (Leibniz.eqb x 0 && Leibniz.eqb c (-0)) eqn:Hz.
  - apply andb_prop in Hz. destruct Hz as [Hx Hc0].
    apply Leibniz.eqb_spec in Hx, Hc0. subst. reflexivity.
  - destruct (c <? x) eqn:Hlt; [apply ltb_asym, Hlt | apply ltb_irrefl].
Qed.

Lemma Math_min_upper (c x : float) :
  is_nan c = false -> (c <? Math_min [c; x]) = false.
Proof.
  intros Hc. rewrite Math_min_pair by assumption.
  destruct (is_nan x); [apply ltb_nan_r|].
  destruct (Leibniz.eqb x (-0) && Leibniz.eqb c 0) eqn:Hz.
  - apply andb_prop in Hz. destruct Hz as [Hx Hc0].
    apply Leibniz.eqb_spec in Hx, Hc0. subst. reflexivity.
  - destruct (x <? c) eqn:Hlt; [apply ltb_asym, Hlt | apply ltb_irrefl].
Qed.

(** What is above neither argument is not above [Math.max]. *)
Lemma Math_max_upper (c x bound : float) :
  is_nan c = false ->
  (bound <? c) = false -> (bound <? x) = false ->
  (bound <? Math_max [c; x]) = false.
Proof.
  intros Hc Hbc Hbx. rewrite Math_max_pair by assumption.
  destruct (is_nan x); [apply ltb_nan_r|].
  destruct (Leibniz.eqb x 0 && Leibniz.eqb c (-0)); [assumption|].
  destruct (c <? x); assumption.
Qed.

(** Among equal Numbers the largest is that Number, and so is the
    smallest. *)
Lemma max_loop_same (x : float) (xs : list float) :
  is_nan x = false -> Forall (fun y => y = x) xs -> max_loop x xs = x.
Proof.
  intros Hnan. induction 1 as [|y ys -> _ IH]; [reflexivity|].
  cbn [max_loop]. rewrite Hnan, ltb_irrefl.
  destruct (Leibniz.eqb x 0 && Leibniz.eqb x (-0)); exact IH.
Qed.

Lemma min_loop_same (x : float) (xs : list float) :
  is_nan x = false -> Forall (fun y => y = x) xs -> min_loop x xs = x.
Proof.
  intros Hnan. induction 1 as [|y ys -> _ IH]; [reflexivity|].
  cbn [min_loop]. rewrite Hnan, ltb_irrefl.
  destruct (Leibniz.eqb x (-0) && Leibniz.eqb x 0); exact IH.
Qed.

Lemma finite_number (x : float) : is_finite x = true -> is_nan x = false.
Proof.
  unfold is_finite. intros H. apply negb_true_iff, orb_false_iff in H. tauto.
Qed.

(** The difference of a finite Number and itself is [+0]. *)
Lemma sub_diag (x : float) : is_finite x = true -> x - x = 0.
Proof.
  unfold is_finite, is_infinity. rewrite is_nan_spec, eqb_spec, abs_spec.
  intros H. apply Prim2SF_inj. rewrite sub_spec.
  change (Prim2SF infinity) with (S754_infinity false) in H.
  change (Prim2SF 0) with (S754_zero false).
  destruct (Prim2SF x) as [[]|[]| |s m e]; simpl in H; try discriminate;
    try reflexivity.
  unfold SF64sub, SFsub. rewrite Z.sub_diag. reflexivity.
Qed.

(** Powers of two, by running [Math.pow(2, k)] for every exponent up to
    the one from which [ldexp] no longer looks at it. *)
Lemma upto_In (n : nat) (k : Z) : (0 <= k < Z.of_nat n)%Z -> In k (upto n).
Proof.
  intros H. unfold upto. apply in_map_iff. exists (Z.to_nat k). split; [lia|].
  apply in_seq. lia.
Qed.

Lemma pow2_exact_table :
  forallb (fun k => Leibniz.eqb (Math_pow2 k) (Number_of_Z (2 ^ k))) (upto 1024)
  = true.
Proof. vm_compute. reflexivity. Qed.

Lemma pow2_overflow_table :
  forallb (fun k => Leibniz.eqb (Math_pow2 (1024 + k)) infinity) (upto 1075)
  = true.
Proof. vm_compute. reflexivity. Qed.

Lemma zero_by_pow2_table :
  forallb (fun k => Leibniz.eqb (0 / Math_pow2 k) 0) (upto 2099) = true.
Proof. vm_compute. reflexivity. Qed.

Lemma Math_pow2_clamp (k : Z) : (2098 <= k)%Z -> Math_pow2 k = Math_pow2 2098.
Proof.
  intros H. unfold Math_pow2, Z.ldexp.
  replace (Z.min k (Z.sub emax emin)) with 2098%Z; [reflexivity|].
  change (Z.sub emax emin) with 2098%Z. lia.
Qed.

Lemma Math_pow2_exact (k : Z) :
  (0 <= k <= 1023)%Z -> Math_pow2 k = Number_of_Z (2 ^ k).
Proof.
  intros H. pose proof pow2_exact_table as T. rewrite forallb_forall in T.
  apply Leibniz.eqb_spec, T, upto_In. lia.
Qed.

Lemma Math_pow2_overflow (k : Z) : (1024 <= k)%Z -> Math_pow2 k = infinity.
Proof.
  intros H. destruct (Z.le_gt_cases 2098 k) as [Hbig|Hsmall].
  - rewrite Math_pow2_clamp by assumption. reflexivity.
  - pose proof pow2_overflow_table as T. rewrite forallb_forall in T.
    replace k with (1024 + (k - 1024))%Z by lia.
    apply Leibniz.eqb_spec, T, upto_In. lia.
Qed.

Lemma zero_by_pow2 (k : Z) : (0 <= k)%Z -> 0 / Math_pow2 k = 0.
Proof.
  intros H. destruct (Z.le_gt_cases 2098 k) as [Hbig|Hsmall].
  - rewrite Math_pow2_clamp by assumption. reflexivity.
  - pose proof zero_by_pow2_table as T. rewrite forallb_forall in T.
    apply Leibniz.eqb_spec, T, upto_In. lia.
Qed.

(** Rounding never makes a NaN: the mantissa stays non-negative through
    the shifts and the rounding. *)
Lemma shr_1_nonneg (mrs : shr_record) :
  (0 <= shr_m mrs)%Z -> (0 <= shr_m (shr_1 mrs))%Z.
Proof.
  destruct mrs as [m r s]. simpl. destruct m as [|[p|p|]|[p|p|]]; simpl; lia.
Qed.

Lemma iter_shr_1_nonneg (p : positive) (mrs : shr_record) :
  (0 <= shr_m mrs)%Z -> (0 <= shr_m (iter_pos shr_1 p mrs))%Z.
Proof.
  revert mrs. induction p as [p IH|p IH|]; simpl; intros mrs H.
  - apply IH, IH, shr_1_nonneg, H.
  - apply IH, IH, H.
  - apply shr_1_nonneg, H.
Qed.

Lemma shr_fexp_nonneg (m e : Z) (l : location) :
  (0 <= m)%Z -> (0 <= shr_m (fst (shr_fexp prec emax m e l)))%Z.
Proof.
  intros H. unfold shr_fexp, shr.
  assert (Hm : (0 <= shr_m (shr_record_of_loc m l))%Z)
    by (destruct l as [|[]]; exact H).
  destruct (_ - e)%Z; simpl; try assumption.
  apply iter_shr_1_nonneg, Hm.
Qed.

Lemma round_nearest_even_nonneg (m : Z) (l : location) :
  (0 <= m)%Z -> (0 <= round_nearest_even m l)%Z.
Proof.
  intros H. destruct l as [|[]]; simpl; try lia. destruct (Z.even m); lia.
Qed.

Lemma binary_round_aux_number (sx : bool) (m e : Z) (l : location) :
  (0 <= m)%Z -> binary_round_aux prec emax sx m e l <> S754_nan.
Proof.
  intros H. unfold binary_round_aux.
  pose proof (shr_fexp_nonneg m e l H) as H1.
  destruct (shr_fexp prec emax m e l) as [mrs' e']. simpl in H1.
  pose proof (shr_fexp_nonneg _ e' loc_Exact
                (round_nearest_even_nonneg _ (loc_of_shr_record mrs') H1)) as H2.
  destruct (shr_fexp prec emax _ e' loc_Exact) as [mrs'' e'']. simpl in H2.
  destruct (shr_m mrs''); [discriminate | | lia].
  destruct (_ <=? _)%Z; discriminate.
Qed.

Lemma binary_normalize_number (m e : Z) (szero : bool) :
  binary_normalize prec emax m e szero <> S754_nan.
Proof.
  unfold binary_normalize, binary_round. destruct m as [|p|p]; [discriminate| |].
  all: destruct (shl_align _ _ _) as [mz ez]; apply binary_round_aux_number; lia.
Qed.

(** The product and the sum of a Number and a finite Number other than
    zero are Numbers. *)
Lemma mul_number (x c : float) (s : bool) (m : positive) (e : Z) :
  Prim2SF c = S754_finite s m e -> is_nan x = false -> is_nan (x * c) = false.
Proof.
  rewrite !is_nan_spec, mul_spec. intros -> H.
  destruct (Prim2SF x) as [[]|[]| |sx mx ex]; try discriminate; try reflexivity.
  unfold SF64mul, SFmul.
  pose proof (binary_round_aux_number (xorb sx s) (Zpos (mx * m)) (ex + e)
                loc_Exact ltac:(lia)) as Hn.
  destruct (binary_round_aux _ _ _ _ _ _); congruence.
Qed.

Lemma add_number (c x : float) (s : bool) (m : positive) (e : Z) :
  Prim2SF c = S754_finite s m e -> is_nan x = false -> is_nan (c + x) = false.
Proof.
  rewrite !is_nan_spec, add_spec. intros -> H.
  destruct (Prim2SF x) as [[]|[]| |sx mx ex]; try discriminate; try reflexivity.
  unfold SF64add, SFadd.
  match goal with
  | |- context [binary_normalize ?p ?q ?a ?b ?c] =>
      pose proof (binary_normalize_number a b c) as Hn;
      destruct (binary_normalize p q a b c)
  end; congruence.
Qed.

Lemma Math_max_number (c x : float) :
  is_nan c = false -> is_nan x = false -> is_nan (Math_max [c; x]) = false.
Proof.
  intros Hc Hx. rewrite Math_max_pair, Hx by assumption.
  destruct (_ && _); [assumption|]. destruct (c <? x); assumption.
Qed.

Lemma Math_min_number (c x : float) :
  is_nan c = false -> is_nan x = false -> is_nan (Math_min [c; x]) = false.
Proof.
  intros Hc Hx. rewrite Math_min_pair, Hx by assumption.
  destruct (_ && _); [assumption|]. destruct (x <? c); assumption.
Qed.

(** [Math.max(lo, Math.min(hi, t))] with [lo] not above [hi]: never below
    [lo], never above [hi], and a Number between the two when [t] is one. *)
Lemma clamp_bounds (lo hi t : float) :
  is_nan lo = false -> is_nan hi = false -> (hi <? lo) = false ->
  (Math_max [lo; Math_min [hi; t]] <? lo) = false /\
  (hi <? Math_max [lo; Math_min [hi; t]]) = false /\
  (is_nan t = false ->
   (lo <=? Math_max [lo; Math_min [hi; t]]) = true /\
   (Math_max [lo; Math_min [hi; t]] <=? hi) = true).
Proof.
  intros Hlo Hhi Hle.
  assert (H1 : (Math_max [lo; Math_min [hi; t]] <? lo) = false)
    by (apply Math_max_lower, Hlo).
  assert (H2 : (hi <? Math_max [lo; Math_min [hi; t]]) = false)
    by (apply Math_max_upper; [assumption | assumption | apply Math_min_upper, Hhi]).
  split; [assumption|]. split; [assumption|].
  intros Ht.
  assert (Hn : is_nan (Math_max [lo; Math_min [hi; t]]) = false)
    by (apply Math_max_number; [assumption | apply Math_min_number; assumption]).
  split; apply ltb_false_leb; assumption.
Qed.

Lemma SFleb_key (x y : spec_float) :
  x <> S754_nan -> y <> S754_nan ->
  (SFleb x y = true <-> lexle (SFkey x) (SFkey y)).
Proof.
  intros Hx Hy. unfold SFleb.
  destruct x as [[]|[]| |[] mx ex], y as [[]|[]| |[] my ey];
    try congruence; simpl; try (split; [intros _; lia | reflexivity]);
    try (split; [discriminate | lia]).
  all: change (Pos.compare_cont Eq mx my) with (mx ?= my)%positive.
  all: destruct (Z.compare_spec ex ey); destruct (Pos.compare_spec mx my); simpl;
    split; intros H'; try discriminate; try reflexivity; lia.
Qed.

Lemma SFleb_number (x y : spec_float) :
  SFleb x y = true -> x <> S754_nan /\ y <> S754_nan.
Proof.
  unfold SFleb.
  destruct x as [[]|[]| |[] mx ex], y as [[]|[]| |[] my ey]; simpl;
    try discriminate; intros _; split; discriminate.
Qed.

(** [<=] is transitive. *)
Lemma leb_trans (x y z : float) :
  (x <=? y) = true -> (y <=? z) = true -> (x <=? z) = true.
Proof.
  rewrite !leb_spec. intros Hxy Hyz.
  destruct (SFleb_number _ _ Hxy) as [Hx Hy].
  destruct (SFleb_number _ _ Hyz) as [_ Hz].
  apply SFleb_key in Hxy, Hyz; try assumption. apply SFleb_key; try assumption.
  destruct (SFkey (Prim2SF x)) as [[a1 a2] a3], (SFkey (Prim2SF y)) as [[b1 b2] b3],
    (SFkey (Prim2SF z)) as [[c1 c2] c3].
  unfold lexle in *. lia.
Qed.

Lemma leb_refl (x : float) : is_nan x = false -> (x <=? x) = true.
Proof. intros H. apply ltb_false_leb; [assumption | assumption | apply ltb_irrefl]. Qed.

(** The loops of [Math.max] and [Math.min] over Numbers keep the largest
    and the smallest value met so far. *)
Lemma max_loop_spec (xs : list float) (h : float) :
  is_nan h = false -> Forall (fun x => is_nan x = false) xs ->
  (max_loop h xs = h \/ In (max_loop h xs) xs) /\
  (h <=? max_loop h xs) = true /\
  Forall (fun x => (x <=? max_loop h xs) = true) xs.
Proof.
  intros Hh Hxs. revert h Hh.
  induction Hxs as [|x xs Hx _ IH]; intros h Hh.
  - simpl. split; [now left|]. split; [apply leb_refl, Hh | constructor].
  - cbn [max_loop]. rewrite Hx.
    destruct (Leibniz.eqb x 0 && Leibniz.eqb h (-0)) eqn:Hz.
    + apply andb_prop in Hz. destruct Hz as [Hx0 Hh0].
      apply Leibniz.eqb_spec in Hx0, Hh0. subst x h.
      destruct (IH 0 eq_refl) as (Hin & Hle & Hall).
      split; [right; destruct Hin as [->|Hin]; [now left | now right]|].
      split; [apply (leb_trans _ 0); [reflexivity | assumption]|].
      constructor; assumption.
    + destruct (h <? x) eqn:Hlt.
      * destruct (IH x Hx) as (Hin & Hle & Hall).
        split; [right; destruct Hin as [->|Hin]; [now left | now right]|].
        split; [apply (leb_trans _ x); [apply ltb_leb, Hlt | assumption]|].
        constructor; assumption.
      * destruct (IH h Hh) as (Hin & Hle & Hall).
        split; [destruct Hin as [->|Hin]; [now left | right; now right]|].
        split; [assumption|].
        constructor; [|assumption].
        apply (leb_trans _ h); [apply ltb_false_leb; assumption | assumption].
Qed.

Lemma min_loop_spec (xs : list float) (l : float) :
  is_nan l = false -> Forall (fun x => is_nan x = false) xs ->
  (min_loop l xs = l \/ In (min_loop l xs) xs) /\
  (min_loop l xs <=? l) = true /\
  Forall (fun x => (min_loop l xs <=? x) = true) xs.
Proof.
  intros Hl Hxs. revert l Hl.
  induction Hxs as [|x xs Hx _ IH]; intros l Hl.
  - simpl. split; [now left|]. split; [apply leb_refl, Hl | constructor].
  - cbn [min_loop]. rewrite Hx.
    destruct (Leibniz.eqb x (-0) && Leibniz.eqb l 0) eqn:Hz.
    + apply andb_prop in Hz. destruct Hz as [Hx0 Hl0].
      apply Leibniz.eqb_spec in Hx0, Hl0. subst x l.
      destruct (IH (-0) eq_refl) as (Hin & Hle & Hall).
      split; [right; destruct Hin as [->|Hin]; [now left | now right]|].
      split; [apply (leb_trans _ (-0)); [assumption | reflexivity]|].
      constructor; assumption.
    + destruct (x <? l) eqn:Hlt.
      * destruct (IH x Hx) as (Hin & Hle & Hall).
        split; [right; destruct Hin as [->|Hin]; [now left | now right]|].
        split; [apply (leb_trans _ x); [assumption | apply ltb_leb, Hlt]|].
        constructor; assumption.
      * destruct (IH l Hl) as (Hin & Hle & Hall).
        split; [destruct Hin as [->|Hin]; [now left | right; now right]|].
        split; [assumption|].
        constructor; [|assumption].
        apply (leb_trans _ l); [assumption | apply ltb_false_leb; assumption].
Qed.

(** [Math.max] of Numbers, at least one: the largest of them. *)
Lemma Math_max_largest (xs : list float) :
  xs <> [] -> Forall (fun x => is_nan x = false) xs ->
  In (Math_max xs) xs /\ Forall (fun x => (x <=? Math_max xs) = true) xs.
Proof.
  destruct xs as [|x xs]; [congruence|]. intros _ Hxs.
  inversion Hxs as [|? ? Hx Hrest]; subst.
  unfold Math_max. rewrite max_loop_first by assumption.
  destruct (max_loop_spec xs x Hx Hrest) as (Hin & Hle & Hall).
  split; [destruct Hin as [->|Hin]; [now left | now right] | constructor; assumption].
Qed.

Lemma Math_min_smallest (xs : list float) :
  xs <> [] -> Forall (fun x => is_nan x = false) xs ->
  In (Math_min xs) xs /\ Forall (fun x => (Math_min xs <=? x) = true) xs.
Proof.
  destruct xs as [|x xs]; [congruence|]. intros _ Hxs.
  inversion Hxs as [|? ? Hx Hrest]; subst.
  unfold Math_min. rewrite min_loop_first by assumption.
  destruct (min_loop_spec xs x Hx Hrest) as (Hin & Hle & Hall).
  split; [destruct Hin as [->|Hin]; [now left | now right] | constructor; assumption].
Qed.

(** The difference of two finite Numbers and the quotient of a Number by
    a finite Number other than zero are Numbers. *)
Lemma finite_spec (x : float) :
  is_finite x = true ->
  match Prim2SF x with S754_zero _ | S754_finite _ _ _ => True | _ => False end.
Proof.
  unfold is_finite, is_infinity. rewrite is_nan_spec, eqb_spec, abs_spec.
  change (Prim2SF infinity) with (S754_infinity false).
  destruct (Prim2SF x) as [[]|[]| |s m e]; simpl; try discriminate; auto.
Qed.

Lemma sub_number (x y : float) :
  is_finite x = true -> is_finite y = true -> is_nan (x - y) = false.
Proof.
  intros Hx Hy. apply finite_spec in Hx, Hy.
  rewrite is_nan_spec, sub_spec.
  destruct (Prim2SF x) as [[]|[]| |sx mx ex], (Prim2SF y) as [[]|[]| |sy my ey];
    try contradiction; try reflexivity.
  unfold SF64sub, SFsub.
  match goal with
  | |- context [binary_normalize ?p ?q ?a ?b ?c] =>
      pose proof (binary_normalize_number a b c) as Hn;
      destruct (binary_normalize p q a b c)
  end; congruence.
Qed.

Lemma div_core_nonneg (m1 : positive) (e1 : Z) (m2 : positive) (e2 : Z) :
  (0 <= fst (fst (SFdiv_core_binary prec emax (Zpos m1) e1 (Zpos m2) e2)))%Z.
Proof.
  unfold SFdiv_core_binary.
  set (sh := (e1 - e2 - _)%Z).
  set (m' := match sh with Z0 => Zpos m1 | Zpos _ => Z.shiftl (Zpos m1) sh | Zneg _ => 0%Z end).
  assert (Hm' : (0 <= m')%Z).
  { unfold m'. destruct sh; try lia. apply Z.shiftl_nonneg. lia. }
  pose proof (Z.div_pos m' (Zpos m2) Hm' ltac:(lia)) as Hq.
  unfold Z.div in Hq. destruct (Z.div_eucl m' (Zpos m2)) as [q r]. exact Hq.
Qed.

Lemma div_number (x c : float) (s : bool) (m : positive) (e : Z) :
  Prim2SF c = S754_finite s m e -> is_nan x = false -> is_nan (x / c) = false.
Proof.
  rewrite !is_nan_spec, div_spec. intros -> H.
  destruct (Prim2SF x) as [[]|[]| |sx mx ex]; try discriminate; try reflexivity.
  unfold SF64div, SFdiv.
  pose proof (div_core_nonneg mx ex m e) as Hq.
  destruct (SFdiv_core_binary prec emax (Zpos mx) ex (Zpos m) e) as [[mz ez] lz].
  simpl in Hq.
  pose proof (binary_round_aux_number (xorb sx s) mz ez lz Hq) as Hn.
  destruct (binary_round_aux _ _ _ _ _ _); congruence.
Qed.

Lemma pow2_finite_table :
  forallb (fun k => match Prim2SF (Math_pow2 k) with
                    | S754_finite false _ _ => true
                    | _ => false
                    end) (upto 1024) = true.
Proof. vm_compute. reflexivity. Qed.

Lemma Math_pow2_finite (k : Z) :
  (0 <= k <= 1023)%Z -> exists m e, Prim2SF (Math_pow2 k) = S754_finite false m e.
Proof.
  intros H. pose proof pow2_finite_table as T. rewrite forallb_forall in T.
  specialize (T k (upto_In 1024 k ltac:(lia))).
  destruct (Prim2SF (Math_pow2 k)) as [| | |[] m e]; try discriminate. eauto.
Qed.

(** A sum is the negative zero only when both terms are: a sum of two
    finite Numbers that is not exactly zero is at least the least positive
    Number in magnitude, and rounding leaves it away from zero. *)
Lemma shr_1_div2 (mrs : shr_record) :
  (0 <= shr_m mrs)%Z -> shr_m (shr_1 mrs) = Z.div2 (shr_m mrs).
Proof.
  destruct mrs as [m r s]. simpl. destruct m as [|[p|p|]|p]; simpl; try reflexivity; lia.
Qed.

Lemma div2_nonneg (m : Z) : (0 <= m)%Z -> (0 <= Z.div2 m)%Z.
Proof. intros H. rewrite Z.div2_nonneg. exact H. Qed.

Lemma iter_shr_1_shiftr (p : positive) (mrs : shr_record) :
  (0 <= shr_m mrs)%Z ->
  shr_m (iter_pos shr_1 p mrs) = Z.shiftr (shr_m mrs) (Zpos p).
Proof.
  revert mrs. induction p as [p IH|p IH|]; simpl iter_pos; intros mrs H.
  - assert (H1 : (0 <= shr_m (shr_1 mrs))%Z)
      by (rewrite shr_1_div2 by assumption; apply div2_nonneg, H).
    assert (H2 : (0 <= shr_m (iter_pos shr_1 p (shr_1 mrs)))%Z)
      by (rewrite IH by assumption; apply Z.shiftr_nonneg, H1).
    rewrite IH, IH, shr_1_div2 by assumption.
    rewrite Z.div2_spec, !Z.shiftr_shiftr by lia. f_equal. lia.
  - assert (H2 : (0 <= shr_m (iter_pos shr_1 p mrs))%Z)
      by (rewrite IH by assumption; apply Z.shiftr_nonneg, H).
    rewrite IH, IH by assumption.
    rewrite !Z.shiftr_shiftr by lia. f_equal. lia.
  - rewrite shr_1_div2 by assumption. apply Z.div2_spec.
Qed.

Lemma digits2_pos_lower (p : positive) :
  (2 ^ (Zpos (digits2_pos p) - 1) <= Zpos p)%Z.
Proof.
  induction p as [p IH|p IH|]; simpl digits2_pos; [| |simpl; lia].
  all: rewrite Pos2Z.inj_succ;
    replace (Z.succ (Zpos (digits2_pos p)) - 1)%Z
      with (Z.succ (Zpos (digits2_pos p) - 1))%Z by lia;
    rewrite Z.pow_succ_r by lia; lia.
Qed.

Lemma shr_fexp_pos (m e : Z) (l : location) :
  (0 < m)%Z -> (SpecFloat.emin prec emax <= e)%Z ->
  (0 < shr_m (fst (shr_fexp prec emax m e l)))%Z /\
  (SpecFloat.emin prec emax <= snd (shr_fexp prec emax m e l))%Z.
Proof.
  intros Hm He. unfold shr_fexp, shr.
  assert (Hrec : shr_m (shr_record_of_loc m l) = m) by (destruct l as [|[]]; reflexivity).
  destruct m as [|p|p]; try lia. simpl Zdigits2.
  destruct (fexp prec emax (Zpos (digits2_pos p) + e) - e)%Z as [|n|n] eqn:Hn;
    simpl fst; simpl snd; rewrite ?Hrec; try (split; lia).
  rewrite iter_shr_1_shiftr by (rewrite Hrec; lia). rewrite Hrec.
  unfold fexp in Hn.
  assert (Hlt : (Zpos n <= Zpos (digits2_pos p) - 1)%Z) by (unfold prec in *; lia).
  split; [|lia].
  rewrite Z.shiftr_div_pow2 by lia.
  apply Z.div_str_pos. split; [apply Z.pow_pos_nonneg; lia|].
  etransitivity; [|apply digits2_pos_lower].
  apply Z.pow_le_mono_r; lia.
Qed.

Lemma round_nearest_even_pos (m : Z) (l : location) :
  (0 < m)%Z -> (0 < round_nearest_even m l)%Z.
Proof.
  intros H. destruct l as [|[]]; simpl; try lia. destruct (Z.even m); lia.
Qed.

Lemma binary_round_aux_nonzero (sx s : bool) (m e : Z) (l : location) :
  (0 < m)%Z -> (SpecFloat.emin prec emax <= e)%Z ->
  binary_round_aux prec emax sx m e l <> S754_zero s.
Proof.
  intros Hm He. unfold binary_round_aux.
  destruct (shr_fexp_pos m e l Hm He) as [H1 H1e].
  destruct (shr_fexp prec emax m e l) as [mrs' e']. simpl in H1, H1e.
  destruct (shr_fexp_pos _ e' loc_Exact
              (round_nearest_even_pos _ (loc_of_shr_record mrs') H1) H1e) as [H2 _].
  destruct (shr_fexp prec emax _ e' loc_Exact) as [mrs'' e'']. simpl in H2.
  destruct (shr_m mrs''); [lia | | discriminate].
  destruct (_ <=? _)%Z; discriminate.
Qed.

Lemma binary_normalize_nonzero (m e : Z) :
  (SpecFloat.emin prec emax <= e)%Z ->
  binary_normalize prec emax m e false <> S754_zero true.
Proof.
  intros He. unfold binary_normalize, binary_round.
  destruct m as [|p|p]; [discriminate| |].
  all: destruct (shl_align _ _ _) as [mz ez] eqn:Hal;
    apply binary_round_aux_nonzero; [lia|];
    unfold shl_align in Hal;
    destruct (_ - e)%Z eqn:Hd; injection Hal as <- <-; try assumption;
    unfold fexp; lia.
Qed.

Lemma valid_exponent (x : float) (s : bool) (m : positive) (e : Z) :
  Prim2SF x = S754_finite s m e -> (SpecFloat.emin prec emax <= e)%Z.
Proof.
  intros H. pose proof (Prim2SF_valid x) as Hv. rewrite H in Hv.
  simpl in Hv. unfold bounded, canonical_mantissa in Hv.
  apply andb_prop in Hv. destruct Hv as [Hc _].
  apply Z.eqb_eq in Hc. unfold fexp in Hc. lia.
Qed.

Lemma add_neg_zero (x y : float) :
  Prim2SF x <> S754_zero true -> Prim2SF (x + y) <> S754_zero true.
Proof.
  intros Hx. rewrite add_spec.
  destruct (Prim2SF x) as [[]|[]| |sx mx ex] eqn:Ex;
    destruct (Prim2SF y) as [[]|[]| |sy my ey] eqn:Ey;
    try congruence; try discriminate.
  unfold SF64add, SFadd.
  apply binary_normalize_nonzero.
  pose proof (valid_exponent x _ _ _ Ex). pose proof (valid_exponent y _ _ _ Ey). lia.
Qed.

Lemma zero_classes (x : float) (s : bool) :
  Prim2SF x = S754_zero s -> x = if s then (-0) else 0.
Proof.
  intros H. apply Prim2SF_inj. rewrite H. destruct s; reflexivity.
Qed.

(** Adding a zero of either sign to a Number other than zero, to an
    infinity or to NaN changes nothing. *)
Lemma add_zero_other (z x : float) (s : bool) :
  Prim2SF z = S754_zero s -> (forall s', Prim2SF x <> S754_zero s') ->
  z + x = x /\ x + z = x.
Proof.
  intros Hz Hx. split; apply Prim2SF_inj; rewrite add_spec, Hz;
    destruct (Prim2SF x) as [sx|[]| |sx m e]; try reflexivity;
    exfalso; apply (Hx sx); reflexivity.
Qed.

(** Adding [+0] changes nothing but the negative zero. *)
Lemma add_zero_r (x : float) : Prim2SF x <> S754_zero true -> x + 0 = x.
Proof.
  intros Hx. apply Prim2SF_inj. rewrite add_spec.
  change (Prim2SF 0) with (S754_zero false).
  destruct (Prim2SF x) as [[]|[]| |sx m e]; try reflexivity. congruence.
Qed.

Lemma zero_add (x : float) : Prim2SF x <> S754_zero true -> 0 + x = x.
Proof.
  intros Hx. apply Prim2SF_inj. rewrite add_spec.
  change (Prim2SF 0) with (S754_zero false).
  destruct (Prim2SF x) as [[]|[]| |sx m e]; try reflexivity. congruence.
Qed.

(** Next to anything but the negative zero the sign of a zero term is lost. *)
Lemma add_signed_zero (acc : float) :
  Prim2SF acc <> S754_zero true -> acc + (-0) = acc + 0.
Proof.
  intros Hx. apply Prim2SF_inj. rewrite !add_spec.
  change (Prim2SF 0) with (S754_zero false).
  change (Prim2SF (-0)) with (S754_zero true).
  destruct (Prim2SF acc) as [[]|[]| |sx m e]; try reflexivity. congruence.
Qed.

Lemma sum_neg_zero (xs : list float) (acc : float) :
  Prim2SF acc <> S754_zero true ->
  Prim2SF (fold_left add xs acc) <> S754_zero true.
Proof.
  revert acc. induction xs as [|x xs IH]; simpl; intros acc H; [exact H|].
  apply IH, add_neg_zero, H.
Qed.

(** A sum that starts from [+0] does not see the sign of a zero term. *)
Lemma sum_signed_zeros (xs ys : list float) (acc : float) :
  Prim2SF acc <> S754_zero true ->
  Forall2 (fun x y => x = y \/ (x = 0 /\ y = (-0))) xs ys ->
  fold_left add xs acc = fold_left add ys acc.
Proof.
  intros Hacc H. revert acc Hacc.
  induction H as [|x y xs ys Hxy _ IH]; simpl; intros acc Hacc; [reflexivity|].
  assert (Heq : acc + x = acc + y).
  { destruct Hxy as [->|[-> ->]]; [reflexivity|].
    symmetry. apply add_signed_zero, Hacc. }
  rewrite <- Heq. apply IH, add_neg_zero, Hacc.
Qed.

(** Two terms added to 0, and 0 added to their sum. *)
Lemma sum_of_two (a b : float) : 0 + a + b = a + b + 0.
Proof.
  destruct (Prim2SF a) as [[]|sa| |sa ma ea] eqn:Ea.
  2-5: assert (Ha : Prim2SF a <> S754_zero true) by (rewrite Ea; discriminate);
    rewrite (zero_add a Ha), add_zero_r by (apply add_neg_zero, Ha); reflexivity.
  rewrite (zero_classes a true Ea).
  destruct (Prim2SF b) as [sb|sb| |sb mb eb] eqn:Eb.
  1: rewrite (zero_classes b sb Eb); destruct sb; reflexivity.
  all: assert (Hb : forall s', Prim2SF b <> S754_zero s')
      by (intros s'; rewrite Eb; discriminate);
    change (0 + -0) with 0;
    rewrite (proj1 (add_zero_other 0 b false eq_refl Hb)),
      (proj1 (add_zero_other (-0) b true eq_refl Hb));
    symmetry; apply add_zero_r, Hb.
Qed.

(** The integers that count the points of a list are finite Numbers: an
    integer of at most 53 bits is its own mantissa, shifted to 53 bits. *)
Lemma digits2_pos_shift (p k : positive) :
  digits2_pos (Pos.iter xO p k) = (digits2_pos p + k)%positive.
Proof.
  induction k as [|k IH] using Pos.peano_ind.
  - simpl. lia.
  - rewrite Pos.iter_succ. simpl. rewrite IH. lia.
Qed.

Lemma shr_fexp_canonical (m : positive) (e : Z) :
  Zpos (digits2_pos m) = 53%Z -> (SpecFloat.emin prec emax <= e)%Z ->
  shr_fexp prec emax (Zpos m) e loc_Exact
  = ({| shr_m := Zpos m; shr_r := false; shr_s := false |}, e).
Proof.
  intros Hm He. unfold shr_fexp. cbn [Zdigits2 shr_record_of_loc].
  assert (H0 : (SpecFloat.fexp prec emax (Zpos (digits2_pos m) + e) - e = 0)%Z)
    by (unfold SpecFloat.fexp, SpecFloat.emin, prec, emax in *; lia).
  rewrite H0. reflexivity.
Qed.

Lemma binary_round_aux_canonical (s : bool) (m : positive) (e : Z) :
  Zpos (digits2_pos m) = 53%Z ->
  (SpecFloat.emin prec emax <= e <= emax - prec)%Z ->
  binary_round_aux prec emax s (Zpos m) e loc_Exact = S754_finite s m e.
Proof.
  intros Hm He. unfold binary_round_aux.
  rewrite (shr_fexp_canonical m e Hm) by lia.
  cbn [shr_m loc_of_shr_record round_nearest_even].
  rewrite (shr_fexp_canonical m e Hm) by lia. cbn [shr_m].
  destruct (Z.leb_spec e (emax - prec)); [reflexivity | lia].
Qed.

Lemma Number_of_Z_finite (z : Z) :
  (0 < z < 2 ^ 53)%Z ->
  exists m e, Prim2SF (Number_of_Z z) = S754_finite false m e.
Proof.
  intros Hz. destruct z as [|p|p]; try lia.
  assert (Hd : (Zpos (digits2_pos p) <= 53)%Z).
  { pose proof (digits2_pos_lower p) as Hl.
    destruct (Z.le_gt_cases (Zpos (digits2_pos p)) 53) as [|Hgt]; [assumption|].
    assert (2 ^ 53 <= 2 ^ (Zpos (digits2_pos p) - 1))%Z
      by (apply Z.pow_le_mono_r; lia).
    lia. }
  assert (Hround : exists m e,
             binary_normalize prec emax (Zpos p) 0 false = S754_finite false m e /\
             Zpos (digits2_pos m) = 53%Z /\ (-52 <= e <= 0)%Z).
  { unfold binary_normalize, binary_round, shl_align.
    assert (Hf : SpecFloat.fexp prec emax (Zpos (digits2_pos p) + 0)
                 = (Zpos (digits2_pos p) - 53)%Z)
      by (unfold SpecFloat.fexp, SpecFloat.emin, prec, emax; lia).
    rewrite Hf, Z.sub_0_r.
    destruct (Zpos (digits2_pos p) - 53)%Z as [|k|k] eqn:Hk; try lia.
    - exists p, 0%Z. split; [|lia].
      apply binary_round_aux_canonical; [lia|].
      unfold SpecFloat.emin, prec, emax. lia.
    - exists (Pos.iter xO p k), (Zneg k).
      assert (Hdk : Zpos (digits2_pos (Pos.iter xO p k)) = 53%Z)
        by (rewrite digits2_pos_shift; lia).
      split; [|lia].
      apply binary_round_aux_canonical; [assumption|].
      unfold SpecFloat.emin, prec, emax. lia. }
  destruct Hround as (m & e & Hr & Hm & He).
  exists m, e. unfold Number_of_Z. rewrite Hr.
  apply Prim2SF_SF2Prim. unfold valid_binary, bounded, canonical_mantissa.
  rewrite Hm. apply andb_true_intro. split.
  - apply Z.eqb_eq. unfold SpecFloat.fexp, SpecFloat.emin, prec, emax. lia.
  - apply Z.leb_le. unfold prec, emax. lia.
Qed.

(** The sum of a Number and a finite Number is a Number, and so is a sum
    of finite Numbers. *)
Lemma add_finite (x c : float) :
  is_nan x = false -> is_finite c = true -> is_nan (x + c) = false.
Proof.
  intros Hx Hc. apply finite_spec in Hc. rewrite is_nan_spec in Hx.
  rewrite is_nan_spec, add_spec.
  destruct (Prim2SF x) as [[]|[]| |sx mx ex], (Prim2SF c) as [[]|[]| |sc mc ec];
    try contradiction; try discriminate; try reflexivity.
  unfold SF64add, SFadd.
  match goal with
  | |- context [binary_normalize ?p ?q ?a ?b ?c] =>
      pose proof (binary_normalize_number a b c) as Hn;
      destruct (binary_normalize p q a b c)
  end; congruence.
Qed.

Lemma sum_number (xs : list float) (acc : float) :
  is_nan acc = false -> Forall (fun x => is_finite x = true) xs ->
  is_nan (fold_left add xs acc) = false.
Proof.
  intros Hacc H. revert acc Hacc.
  induction H as [|x xs Hx _ IH]; simpl; intros acc Hacc; [exact Hacc|].
  apply IH, add_finite; assumption.
Qed.

(** The mean of finite Numbers, fewer than [2^53] of them, is a Number. *)
Lemma mean_number (xs : list float) :
  xs <> [] -> (Z.of_nat (length xs) < 2 ^ 53)%Z ->
  Forall (fun x => is_finite x = true) xs ->
  is_nan (mean xs) = false.
Proof.
  intros Hne Hlen Hfin. unfold mean, Number_of_nat.
  destruct (Number_of_Z_finite (Z.of_nat (length xs))) as (m & e & Hc).
  - destruct xs; [congruence | cbn [length] in *; lia].
  - apply (div_number _ _ false m e Hc). apply sum_number; [reflexivity | exact Hfin].
Qed.

(** One NaN among the arguments makes [Math.max] and [Math.min] NaN, and
    NaN minus anything is NaN. *)
Lemma max_loop_nan (xs : list float) (highest : float) :
  Exists (fun x => is_nan x = true) xs -> max_loop highest xs = nan.
Proof.
  intros H. revert highest.
  induction H as [x xs Hx|x xs _ IH]; intros highest; simpl.
  - rewrite Hx. reflexivity.
  - destruct (is_nan x); [reflexivity|].
    destruct (_ && _); [apply IH|]. destruct (highest <? x); apply IH.
Qed.

Lemma min_loop_nan (xs : list float) (lowest : float) :
  Exists (fun x => is_nan x = true) xs -> min_loop lowest xs = nan.
Proof.
  intros H. revert lowest.
  induction H as [x xs Hx|x xs _ IH]; intros lowest; simpl.
  - rewrite Hx. reflexivity.
  - destruct (is_nan x); [reflexivity|].
    destruct (_ && _); [apply IH|]. destruct (x <? lowest); apply IH.
Qed.

Lemma sub_nan_l (y : float) : nan - y = nan.
Proof. apply Prim2SF_inj. rewrite sub_spec. reflexivity. Qed.

End NumberFacts.

Lemma spread_of_numbers (coordinate : Location -> float)
  (locations : list Location) :
  locations <> [] ->
  Forall (fun point => is_nan (coordinate point) = false) locations ->
  exists largest smallest,
    In largest locations /\ In smallest locations /\
    Math_max (map coordinate locations) = coordinate largest /\
    Math_min (map coordinate locations) = coordinate smallest /\
    Forall (fun point =>
              (coordinate smallest <=? coordinate point)%float = true /\
              (coordinate point <=? coordinate largest)%float = true)
      locations.
Proof.
  intros Hne Hnum.
  assert (Hne' : map coordinate locations <> [])
    by (destruct locations; [congruence | discriminate]).
  assert (Hnum' : Forall (fun x => is_nan x = false) (map coordinate locations))
    by (apply Forall_map; exact Hnum).
  destruct (NumberFacts.Math_max_largest _ Hne' Hnum') as [Hmax Hle].
  destruct (NumberFacts.Math_min_smallest _ Hne' Hnum') as [Hmin Hge].
  apply in_map_iff in Hmax. destruct Hmax as (largest & Hl & Hlin).
  apply in_map_iff in Hmin. destruct Hmin as (smallest & Hs & Hsin).
  exists largest, smallest.
  rewrite Forall_map in Hle, Hge. rewrite <- Hl in Hle. rewrite <- Hs in Hge.
  repeat split; try assumption; try (symmetry; assumption).
  rewrite Forall_forall in *. intros point Hp. split; [apply Hge | apply Hle]; exact Hp.
Qed.

Lemma spread_number (coordinate : Location -> float) (locations : list Location) :
  Forall (fun point => is_finite (coordinate point) = true) locations ->
  is_nan (Math_max (map coordinate locations)
          - Math_min (map coordinate locations))%float = false.
Proof.
  intros Hfin. destruct locations as [|first others]; [reflexivity|].
  assert (Hnum : Forall (fun point => is_nan (coordinate point) = false)
                   (first :: others))
    by (eapply Forall_impl; [|exact Hfin]; intros ?; apply NumberFacts.finite_number).
  destruct (spread_of_numbers coordinate (first :: others) ltac:(discriminate) Hnum)
    as (largest & smallest & Hl & Hs & -> & -> & _).
  rewrite Forall_forall in Hfin.
  apply NumberFacts.sub_number; apply Hfin; assumption.
Qed.

Lemma spread_nan (coordinate : Location -> float) (locations : list Location) :
  Exists (fun point => is_nan (coordinate point) = true) locations ->
  is_nan (Math_max (map coordinate locations)
          - Math_min (map coordinate locations))%float = true.
Proof.
  intros H. unfold Math_max.
  rewrite NumberFacts.max_loop_nan, NumberFacts.sub_nan_l; [reflexivity|].
  apply Exists_exists in H. destruct H as (point & Hin & Hnan).
  apply Exists_exists. exists (coordinate point). split; [|assumption].
  apply in_map, Hin.
Qed.

(** C2 (grid cell size).  The cell size is the larger of 0.0005 and
    [baseGridSize / zoomFactor].  Here [zoomFactor] is 2 to the power
    [max(0, zoomLevel - 8)]: 1 up to zoom 8, the exact power of two up to
    zoom 1031, [Infinity] beyond.  [baseGridSize] is the larger of the two
    spreads, NaN when one of them is, divided by 50 from zoom 12 on and by
    30 below.  The spread of the latitudes, and of the longitudes, of a
    non-empty list of points is the difference of the largest and the
    smallest one among the points, and NaN when one of them is NaN.  The
    cell size is never below 0.0005, whatever the input and the zoom level
    (it is NaN when the quotient is); for finite coordinates and a zoom level
    up to 1031 it is a Number, at least 0.0005. *)
Theorem grid_cell_size (locations : list Location) (zoomLevel : Z) :
  let divisor := if (12 <=? zoomLevel)%Z then 50%float else 30%float in
  let quotient := (baseGridSize locations zoomLevel / zoomFactor zoomLevel)%float in
  let numbers (coordinate : Location -> float) :=
    Forall (fun point => is_nan (coordinate point) = false) locations in
  let spread (coordinate : Location -> float) (range : float) :=
    exists largest smallest,
      In largest locations /\ In smallest locations /\
      range = (coordinate largest - coordinate smallest)%float /\
      Forall (fun point =>
                (coordinate smallest <=? coordinate point)%float = true /\
                (coordinate point <=? coordinate largest)%float = true)
        locations in
  let not_a_number (coordinate : Location -> float) :=
    Exists (fun point => is_nan (coordinate point) = true) locations in
  (locations <> [] -> numbers lat -> spread lat (latRange locations)) /\
  (locations <> [] -> numbers lng -> spread lng (lngRange locations)) /\
  (not_a_number lat -> is_nan (latRange locations) = true) /\
  (not_a_number lng -> is_nan (lngRange locations) = true) /\
  (exists larger,
      baseGridSize locations zoomLevel = (larger / divisor)%float /\
      (is_nan (latRange locations) = false ->
       is_nan (lngRange locations) = false ->
       (larger = latRange locations \/ larger = lngRange locations) /\
       (latRange locations <=? larger)%float = true /\
       (lngRange locations <=? larger)%float = true) /\
      (is_nan (latRange locations) = true \/ is_nan (lngRange locations) = true ->
       larger = nan)) /\
  ((zoomLevel <= 8)%Z -> zoomFactor zoomLevel = 1%float) /\
  ((8 <= zoomLevel <= 1031)%Z ->
   zoomFactor zoomLevel = Number_of_Z (2 ^ (zoomLevel - 8))) /\
  ((1032 <= zoomLevel)%Z -> zoomFactor zoomLevel = infinity) /\
  gridSize locations zoomLevel
  = (if is_nan quotient then nan
     else if (0.0005 <? quotient)%float then quotient else 0.0005%float) /\
  (gridSize locations zoomLevel <? 0.0005)%float = false /\
  (Forall (fun point => is_finite (lat point) = true /\ is_finite (lng point) = true)
     locations ->
   (zoomLevel <= 1031)%Z ->
   is_nan (gridSize locations zoomLevel) = false /\
   (0.0005 <=? gridSize locations zoomLevel)%float = true).
Proof.
  intros divisor quotient numbers spread not_a_number.
  assert (Hfloor : (gridSize locations zoomLevel <? 0.0005)%float = false)
    by (apply NumberFacts.Math_max_lower; reflexivity).
  split; [|split; [|split; [|split; [|split; [|split; [|split; [|split;
    [|split; [|split]]]]]]]]].
  - intros Hne Hnum.
    destruct (spread_of_numbers lat locations Hne Hnum)
      as (largest & smallest & Hl & Hs & Hmax & Hmin & Hall).
    exists largest, smallest. unfold latRange. rewrite Hmax, Hmin. auto.
  - intros Hne Hnum.
    destruct (spread_of_numbers lng locations Hne Hnum)
      as (largest & smallest & Hl & Hs & Hmax & Hmin & Hall).
    exists largest, smallest. unfold lngRange. rewrite Hmax, Hmin. auto.
  - apply (spread_nan lat).
  - apply (spread_nan lng).
  - exists (Math_max [latRange locations; lngRange locations]).
    split; [reflexivity|]. split.
    + intros Hlat Hlng.
      destruct (NumberFacts.Math_max_largest
                  [latRange locations; lngRange locations]
                  ltac:(discriminate) ltac:(repeat constructor; assumption))
        as [Hin Hle].
      inversion Hle as [|? ? H1 Hle']; subst. inversion Hle' as [|? ? H2 _]; subst.
      split; [destruct Hin as [<-|[<-|[]]]; auto | auto].
    + intros Hnan. apply NumberFacts.max_loop_nan.
      destruct Hnan as [Hnan|Hnan]; [left | right; left]; exact Hnan.
  - intros H. unfold zoomFactor. rewrite Z.max_l by lia. reflexivity.
  - intros H. unfold zoomFactor. rewrite Z.max_r by lia.
    apply NumberFacts.Math_pow2_exact. lia.
  - intros H. unfold zoomFactor. rewrite Z.max_r by lia.
    apply NumberFacts.Math_pow2_overflow. lia.
  - apply NumberFacts.Math_max_floor.
  - exact Hfloor.
  - intros Hfin Hzoom.
    assert (Hlat : is_nan (latRange locations) = false)
      by (apply (spread_number lat); eapply Forall_impl; [|exact Hfin];
          simpl; tauto).
    assert (Hlng : is_nan (lngRange locations) = false)
      by (apply (spread_number lng); eapply Forall_impl; [|exact Hfin];
          simpl; tauto).
    assert (Hbase : is_nan (baseGridSize locations zoomLevel) = false).
    { unfold baseGridSize.
      pose proof (NumberFacts.Math_max_number _ _ Hlat Hlng) as Hmax.
      destruct (12 <=? zoomLevel)%Z.
      - apply (NumberFacts.div_number _ 50 false 7036874417766400 (-47) eq_refl Hmax).
      - apply (NumberFacts.div_number _ 30 false 8444249301319680 (-48) eq_refl Hmax). }
    assert (Hq : is_nan quotient = false).
    { unfold quotient, zoomFactor.
      destruct (NumberFacts.Math_pow2_finite (Z.max 0 (zoomLevel - 8)) ltac:(lia))
        as (m & e & Hpow).
      apply (NumberFacts.div_number _ _ false m e Hpow Hbase). }
    assert (Hnum : is_nan (gridSize locations zoomLevel) = false)
      by (apply NumberFacts.Math_max_number; [reflexivity | exact Hq]).
    split; [exact Hnum|].
    apply NumberFacts.ltb_false_leb; [exact Hnum | reflexivity | exact Hfloor].
Qed.

(** The zoom factor is 1 up to zoom 8, the exact power of two
    [2^(zoomLevel - 8)] from there to zoom 1031, and [Infinity] beyond. *)
Theorem zoom_factor_values (zoomLevel : Z) :
  ((zoomLevel <= 8)%Z -> zoomFactor zoomLevel = 1%float) /\
  ((8 <= zoomLevel <= 1031)%Z ->
   zoomFactor zoomLevel = Number_of_Z (2 ^ (zoomLevel - 8))) /\
  ((1032 <= zoomLevel)%Z -> zoomFactor zoomLevel = infinity).
Proof.
  unfold zoomFactor. repeat split; intros H.
  - rewrite Z.max_l by lia. reflexivity.
  - rewrite Z.max_r by lia. apply NumberFacts.Math_pow2_exact. lia.
  - rewrite Z.max_r by lia. apply NumberFacts.Math_pow2_overflow. lia.
Qed.

(** Points that all sit at one finite position (a single point among
    them) have spreads 0, and the cell size is the floor 0.0005 at every
    zoom level. *)
Theorem coincident_points_grid (first : Location) (others : list Location)
  (zoomLevel : Z) :
  is_finite (lat first) = true -> is_finite (lng first) = true ->
  Forall (fun point => lat point = lat first /\ lng point = lng first) others ->
  latRange (first :: others) = 0%float /\
  lngRange (first :: others) = 0%float /\
  gridSize (first :: others) zoomLevel = 0.0005%float.
Proof.
  intros Hlat Hlng Hsame.
  assert (Hlats : Forall (fun y => y = lat first) (map lat others))
    by (apply Forall_map; eapply Forall_impl; [|exact Hsame]; simpl; tauto).
  assert (Hlngs : Forall (fun y => y = lng first) (map lng others))
    by (apply Forall_map; eapply Forall_impl; [|exact Hsame]; simpl; tauto).
  assert (Hla : latRange (first :: others) = 0%float).
  { unfold latRange, Math_max, Math_min. simpl map.
    rewrite NumberFacts.max_loop_first, NumberFacts.min_loop_first
      by (apply NumberFacts.finite_number, Hlat).
    rewrite NumberFacts.max_loop_same, NumberFacts.min_loop_same
      by (apply NumberFacts.finite_number, Hlat || assumption).
    apply NumberFacts.sub_diag, Hlat. }
  assert (Hln : lngRange (first :: others) = 0%float).
  { unfold lngRange, Math_max, Math_min. simpl map.
    rewrite NumberFacts.max_loop_first, NumberFacts.min_loop_first
      by (apply NumberFacts.finite_number, Hlng).
    rewrite NumberFacts.max_loop_same, NumberFacts.min_loop_same
      by (apply NumberFacts.finite_number, Hlng || assumption).
    apply NumberFacts.sub_diag, Hlng. }
  split; [assumption|]. split; [assumption|].
  unfold gridSize, baseGridSize, zoomFactor. rewrite Hla, Hln.
  replace (Math_max [0; 0] / (if (12 <=? zoomLevel)%Z then 50 else 30))%float
    with 0%float by (destruct (12 <=? zoomLevel)%Z; reflexivity).
  rewrite NumberFacts.zero_by_pow2 by lia. reflexivity.
Qed.

(** ** The [clusters] object *)

Section Buckets.

Variable key : Location -> string.


Lemma fill_cons (l : Location) (ls : list Location) (clusters : Clusters) :
  fill key (l :: ls) clusters = fill key ls (push clusters (key l) l).
Proof. reflexivity. Qed.

Let same (k : string) (location : Location) : bool := String.eqb (key location) k.

Lemma lookup_push (clusters : Clusters) (k k' : string) (location : Location) :
  lookup (push clusters k location) k' =
  if String.eqb k k'
  then Some (match lookup clusters k' with
             | Some bucket => bucket ++ [location]
             | None => [location]
             end)
  else lookup clusters k'.
Proof.
  induction clusters as [|[k0 b0] rest IH]; simpl.
  - destruct (String.eqb_spec k k'); reflexivity.
  - destruct (String.eqb_spec k0 k) as [->|Hk0]; simpl.
    + destruct (String.eqb_spec k k'); reflexivity.
    + destruct (String.eqb_spec k0 k') as [->|Hk0'].
      * destruct (String.eqb_spec k k'); [congruence | reflexivity].
      * exact IH.
Qed.

Lemma keys_push (clusters : Clusters) (k : string) (location : Location) :
  map fst (push clusters k location) =
  if existsb (fun k0 => String.eqb k0 k) (map fst clusters)
  then map fst clusters
  else map fst clusters ++ [k].
Proof.
  induction clusters as [|[k0 b0] rest IH]; simpl; [reflexivity|].
  destruct (String.eqb_spec k0 k) as [->|Hk0]; simpl; [reflexivity|].
  rewrite IH. destruct (existsb _ _); reflexivity.
Qed.

Lemma NoDup_push (clusters : Clusters) (k : string) (location : Location) :
  NoDup (map fst clusters) -> NoDup (map fst (push clusters k location)).
Proof.
  intros Hnd. rewrite keys_push.
  destruct (existsb _ _) eqn:Hex; [assumption|].
  apply NoDup_app; [assumption | repeat constructor; intros [] | ].
  intros k0 Hin [->|[]].
  assert (existsb (fun k1 => String.eqb k1 k0) (map fst clusters) = true)
    by (apply existsb_exists; exists k0; split; [assumption | apply String.eqb_refl]).
  congruence.
Qed.

Lemma values_push (clusters : Clusters) (k : string) (location : Location) :
  Permutation (concat (Object_values (push clusters k location)))
              (concat (Object_values clusters) ++ [location]).
Proof.
  unfold Object_values.
  induction clusters as [|[k0 b0] rest IH]; simpl; [reflexivity|].
  destruct (String.eqb k0 k); simpl.
  - rewrite <- !app_assoc. apply Permutation_app_head, Permutation_app_comm.
  - rewrite IH, app_assoc. reflexivity.
Qed.

Lemma nonempty_push (clusters : Clusters) (k : string) (location : Location) :
  Forall (fun bucket => bucket <> []) (Object_values clusters) ->
  Forall (fun bucket => bucket <> []) (Object_values (push clusters k location)).
Proof.
  unfold Object_values.
  induction clusters as [|[k0 b0] rest IH]; simpl; intros H.
  - repeat constructor. discriminate.
  - inversion H; subst. destruct (String.eqb k0 k); simpl; constructor; auto.
    destruct b0; discriminate.
Qed.

Lemma NoDup_fill (locations : list Location) (clusters : Clusters) :
  NoDup (map fst clusters) -> NoDup (map fst (fill key locations clusters)).
Proof.
  revert clusters. induction locations as [|l ls IH]; intros; auto.
  rewrite fill_cons. apply IH, NoDup_push. assumption.
Qed.

Lemma values_fill (locations : list Location) (clusters : Clusters) :
  Permutation (concat (Object_values (fill key locations clusters)))
              (concat (Object_values clusters) ++ locations).
Proof.
  revert clusters. induction locations as [|l ls IH]; intros.
  - simpl. rewrite app_nil_r. reflexivity.
  - rewrite fill_cons, IH, values_push, <- app_assoc. reflexivity.
Qed.

Lemma nonempty_fill (locations : list Location) (clusters : Clusters) :
  Forall (fun bucket => bucket <> []) (Object_values clusters) ->
  Forall (fun bucket => bucket <> []) (Object_values (fill key locations clusters)).
Proof.
  revert clusters. induction locations as [|l ls IH]; intros; auto.
  rewrite fill_cons. apply IH, nonempty_push. assumption.
Qed.

Lemma lookup_fill (locations : list Location) (clusters : Clusters) (k : string) :
  lookup (fill key locations clusters) k =
  match lookup clusters k, filter (same k) locations with
  | Some bucket, found => Some (bucket ++ found)
  | None, [] => None
  | None, found => Some found
  end.
Proof.
  revert clusters. induction locations as [|l ls IH]; intros.
  - simpl. destruct (lookup clusters k); [rewrite app_nil_r|]; reflexivity.
  - rewrite fill_cons, IH, lookup_push. simpl filter.
    change (same k l) with (String.eqb (key l) k).
    destruct (String.eqb (key l) k).
    + destruct (lookup clusters k); [rewrite <- app_assoc|]; reflexivity.
    + reflexivity.
Qed.

Lemma In_lookup (clusters : Clusters) (k : string) (bucket : list Location) :
  NoDup (map fst clusters) ->
  In (k, bucket) clusters <-> lookup clusters k = Some bucket.
Proof.
  induction clusters as [|[k0 b0] rest IH]; simpl; intros Hnd.
  - split; [intros [] | discriminate].
  - inversion Hnd as [|? ? Hnotin Hnd']; subst.
    destruct (String.eqb_spec k0 k) as [->|Hk0].
    + split.
      * intros [Heq|Hin]; [congruence|].
        exfalso. apply Hnotin. change k with (fst (k, bucket)). now apply in_map.
      * intros [= ->]. now left.
    + rewrite <- IH by assumption. split; [intros [Heq|Hin]; [congruence | assumption] | now right].
Qed.

(** The buckets are the classes of the input under [key], each in input
    order. *)
Lemma In_fill (locations : list Location) (k : string) (bucket : list Location) :
  In (k, bucket) (fill key locations []) <->
  bucket = filter (same k) locations /\ bucket <> [].
Proof.
  rewrite In_lookup by (apply NoDup_fill; constructor).
  rewrite lookup_fill. simpl.
  destruct (filter (same k) locations) eqn:Hf.
  - split; [discriminate | intros [-> H]; congruence].
  - split; [intros [= <-]; split; [reflexivity | discriminate] | intros [-> _]; reflexivity].
Qed.

Lemma keys_fill (locations : list Location) (clusters : Clusters) :
  map fst (fill key locations clusters)
  = map fst clusters ++ first_seen (map key locations) (map fst clusters).
Proof.
  revert clusters. induction locations as [|l ls IH]; intros clusters.
  - simpl. rewrite app_nil_r. reflexivity.
  - rewrite fill_cons, IH, keys_push. simpl.
    destruct (existsb _ _); [reflexivity|].
    rewrite <- app_assoc. reflexivity.
Qed.

(** A location under a key not written yet opens a bucket at the end. *)
Lemma push_fresh (clusters : Clusters) (k : string) (location : Location) :
  ~ In k (map fst clusters) ->
  push clusters k location = clusters ++ [(k, [location])].
Proof.
  induction clusters as [|[k0 b0] rest IH]; simpl; intros Hk; [reflexivity|].
  destruct (String.eqb_spec k0 k) as [->|_]; [tauto|].
  rewrite IH by tauto. reflexivity.
Qed.

Lemma fill_distinct (locations : list Location) (clusters : Clusters) :
  NoDup (map key locations) ->
  (forall l, In l locations -> ~ In (key l) (map fst clusters)) ->
  fill key locations clusters
  = clusters ++ map (fun l => (key l, [l])) locations.
Proof.
  revert clusters. induction locations as [|l ls IH]; intros clusters Hnd Hfresh.
  - simpl. rewrite app_nil_r. reflexivity.
  - simpl map in Hnd. inversion Hnd as [|? ? Hl Hls]; subst.
    rewrite fill_cons, push_fresh by (apply Hfresh; now left).
    rewrite IH; [simpl; rewrite <- app_assoc; reflexivity | assumption |].
    intros l' Hl'. rewrite map_app, in_app_iff. simpl. intros [Hin|[Heq|[]]].
    + apply (Hfresh l'); [now right | assumption].
    + apply Hl. rewrite Heq. now apply in_map.
Qed.

Lemma fill_same (locations : list Location) (k : string) (bucket : list Location) :
  (forall l, In l locations -> key l = k) ->
  fill key locations [(k, bucket)] = [(k, bucket ++ locations)].
Proof.
  revert bucket. induction locations as [|l ls IH]; intros bucket Hk.
  - simpl. rewrite app_nil_r. reflexivity.
  - rewrite fill_cons. simpl push. rewrite (Hk l) by now left.
    rewrite String.eqb_refl, IH by (intros; apply Hk; now right).
    rewrite <- app_assoc. reflexivity.
Qed.

End Buckets.

(** ** The callback and the flattened list *)

Lemma map_flat_Forall2 {A B : Type} (f : A -> option (list B)) (xs : list A)
  (yss : list (list B)) :
  Forall2 (fun x ys => f x = Some ys) xs yss ->
  map_flat f xs = Some (concat yss).
Proof.
  induction 1 as [|x ys xs yss Hx _ IH]; simpl; [reflexivity|].
  rewrite Hx, IH. reflexivity.
Qed.

Lemma Forall2_In_l {A B : Type} (R : A -> B -> Prop) (xs : list A) (ys : list B)
  (x : A) :
  Forall2 R xs ys -> In x xs ->
  exists y before after, R x y /\ ys = before ++ y :: after.
Proof.
  induction 1 as [|x0 y0 xs ys HR _ IH]; simpl; [intros []|].
  intros [->|Hin].
  - exists y0, [], ys. auto.
  - destruct (IH Hin) as (y & before & after & Hy & ->).
    exists y, (y0 :: before), after. auto.
Qed.

Lemma Forall2_In_concat {A B : Type} (R : A -> list B -> Prop) (xs : list A)
  (yss : list (list B)) (y : B) :
  Forall2 R xs yss -> In y (concat yss) ->
  exists x ys, In x xs /\ R x ys /\ In y ys.
Proof.
  induction 1 as [|x0 ys0 xs yss HR _ IH]; simpl; [intros []|].
  rewrite in_app_iff. intros [Hin|Hin].
  - exists x0, ys0. auto.
  - destruct (IH Hin) as (x & ys & Hx & Hys & Hy). exists x, ys. auto.
Qed.

Section RenderList.

Variable Number_toString : float -> string.
Variable Number_toFixed : float -> nat -> string.

Lemma clusterItem_fields (cluster : list Location) (item : Location) :
  clusterItem Number_toFixed cluster = Some item ->
  clusterPoints item = Some cluster /\
  clusterSize item = Some (length cluster) /\
  category item = "cluster".
Proof.
  unfold clusterItem. destruct (nth_error cluster 0); [|discriminate].
  intros [= <-]. simpl. auto.
Qed.

Lemma clusterItem_defined (cluster : list Location) :
  cluster <> [] -> exists item, clusterItem Number_toFixed cluster = Some item.
Proof.
  destruct cluster as [|first rest]; [congruence|]. intros _.
  unfold clusterItem. simpl nth_error. eauto.
Qed.

(** The callback never raises on a bucket that holds a point. *)
Lemma clusterOrPoints_emitted (zoomLevel : Z) (cluster : list Location) :
  cluster <> [] ->
  exists items,
    clusterOrPoints Number_toFixed zoomLevel cluster = Some items /\
    emitted Number_toFixed zoomLevel cluster items.
Proof.
  intros Hne. unfold clusterOrPoints.
  destruct (Nat.eqb_spec (length cluster) 1) as [H1|H1]; simpl.
  - destruct cluster as [|p [|q rest]]; try discriminate.
    exists [p]. split; [reflexivity | constructor; auto].
  - destruct (Z.leb_spec 12 zoomLevel) as [Hz|Hz];
      [destruct (Nat.leb_spec (length cluster) 3) as [H3|H3]|]; simpl.
    + exists cluster. split; [reflexivity | constructor; auto].
    + destruct (clusterItem_defined cluster Hne) as [item Hitem].
      rewrite Hitem. exists [item]. split; [reflexivity|].
      apply emitted_cluster; [assumption | lia | lia].
    + destruct (clusterItem_defined cluster Hne) as [item Hitem].
      rewrite Hitem. exists [item]. split; [reflexivity|].
      assert (length cluster <> 0) by (destruct cluster; simpl; congruence).
      apply emitted_cluster; [assumption | lia | lia].
Qed.

Lemma callbacks_emitted (zoomLevel : Z) (buckets : list (list Location)) :
  Forall (fun bucket => bucket <> []) buckets ->
  exists outs,
    Forall2 (fun bucket items =>
               clusterOrPoints Number_toFixed zoomLevel bucket = Some items /\
               emitted Number_toFixed zoomLevel bucket items) buckets outs.
Proof.
  induction 1 as [|b bs Hb _ [outs IH]].
  - exists []. constructor.
  - destruct (clusterOrPoints_emitted zoomLevel b Hb) as (items & Hi & He).
    exists (items :: outs). constructor; auto.
Qed.

(** The shape of every result: the call returns, and its list is the
    concatenation, bucket after bucket, of what the callback emitted. *)
Lemma clusterNearbyMarkers_cells (locations : list Location) (zoomLevel : Z) :
  exists outs,
    clusterNearbyMarkers Number_toString Number_toFixed locations zoomLevel
      = Some (concat outs) /\
    Forall2 (emitted Number_toFixed zoomLevel)
      (Object_values (partition Number_toString locations zoomLevel)) outs.
Proof.
  destruct (callbacks_emitted zoomLevel
              (Object_values (partition Number_toString locations zoomLevel)))
    as [outs Houts].
  - apply nonempty_fill. constructor.
  - exists outs. split.
    + apply map_flat_Forall2.
      eapply Forall2_impl; [|exact Houts]. simpl. intros ? ? [? _]. assumption.
    + eapply Forall2_impl; [|exact Houts]. simpl. intros ? ? [_ ?]. assumption.
Qed.

Lemma partition_In (locations : list Location) (zoomLevel : Z) (k : string)
  (bucket : list Location) :
  In (k, bucket) (partition Number_toString locations zoomLevel) <->
  bucket = filter (fun location =>
                     String.eqb (cellKey Number_toString
                                   (gridSize locations zoomLevel) location) k)
             locations
  /\ bucket <> [].
Proof. apply In_fill. Qed.

Lemma partition_values (locations : list Location) (zoomLevel : Z) :
  Permutation
    (concat (Object_values (partition Number_toString locations zoomLevel)))
    locations.
Proof. apply (values_fill _ locations []). Qed.

Lemma bucket_points (locations : list Location) (zoomLevel : Z)
  (bucket : list Location) (point : Location) :
  In bucket (Object_values (partition Number_toString locations zoomLevel)) ->
  In point bucket -> In point locations.
Proof.
  intros Hb Hp. eapply Permutation_in; [apply partition_values|].
  apply in_concat. eauto.
Qed.


(** ** Clusters and points in the render list *)

Lemma GeoPoint_not_cluster (point : Location) :
  GeoPoint point -> isCluster point = false.
Proof. intros [H _]. unfold isCluster. rewrite H. reflexivity. Qed.

Lemma recovered_points (points : list Location) :
  Forall GeoPoint points -> recovered points = points.
Proof.
  unfold recovered. induction 1 as [|p ps Hp _ IH]; simpl; [reflexivity|].
  unfold members at 1. rewrite (GeoPoint_not_cluster p Hp), IH. reflexivity.
Qed.

Lemma recovered_no_cluster (items : list Location) :
  (forall item, In item items -> isCluster item = false) ->
  recovered items = items.
Proof.
  unfold recovered. induction items as [|item rest IH]; simpl; intros H;
    [reflexivity|].
  unfold members at 1. rewrite (H item) by now left.
  rewrite IH by (intros; apply H; now right). reflexivity.
Qed.

Lemma recovered_concat (outs : list (list Location)) :
  recovered (concat outs) = concat (map recovered outs).
Proof.
  unfold recovered. induction outs as [|o os IH]; simpl; [reflexivity|].
  rewrite flat_map_app, IH. reflexivity.
Qed.

Lemma clusterItem_isCluster (cluster : list Location) (item : Location) :
  clusterItem Number_toFixed cluster = Some item ->
  2 <= length cluster -> isCluster item = true.
Proof.
  intros Hitem Hlen. destruct (clusterItem_fields _ _ Hitem) as (_ & Hsize & _).
  unfold isCluster. rewrite Hsize.
  destruct (Nat.eqb_spec (length cluster) 0); [lia|].
  destruct (Nat.ltb_spec 1 (length cluster)); [reflexivity | lia].
Qed.

Lemma emitted_recovered (zoomLevel : Z) (bucket items : list Location) :
  Forall GeoPoint bucket ->
  emitted Number_toFixed zoomLevel bucket items -> recovered items = bucket.
Proof.
  intros Hgeo [Hpoints|item Hitem Hlen _].
  - apply recovered_points, Hgeo.
  - unfold recovered, members. simpl.
    rewrite (clusterItem_isCluster _ _ Hitem Hlen).
    destruct (clusterItem_fields _ _ Hitem) as (-> & _).
    apply app_nil_r.
Qed.

Lemma emitted_length (zoomLevel : Z) (bucket items : list Location) :
  emitted Number_toFixed zoomLevel bucket items -> length items <= length bucket.
Proof. intros [Hpoints|item _ Hlen _]; simpl; lia. Qed.

Lemma buckets_GeoPoint (locations : list Location) (zoomLevel : Z) :
  Forall GeoPoint locations ->
  Forall (Forall GeoPoint)
    (Object_values (partition Number_toString locations zoomLevel)).
Proof.
  intros Hgeo. rewrite Forall_forall in *. intros bucket Hb.
  rewrite Forall_forall. intros point Hp.
  eapply Hgeo, bucket_points; eassumption.
Qed.

(** Where a cluster of the render list comes from, when the input holds
    points only: it is the record built for one bucket of the partition. *)
Lemma cluster_origin (locations : list Location) (zoomLevel : Z)
  (outs : list (list Location)) (item : Location) :
  Forall GeoPoint locations ->
  Forall2 (emitted Number_toFixed zoomLevel)
    (Object_values (partition Number_toString locations zoomLevel)) outs ->
  In item (concat outs) -> isCluster item = true ->
  exists k bucket,
    In (k, bucket) (partition Number_toString locations zoomLevel) /\
    clusterItem Number_toFixed bucket = Some item /\
    2 <= length bucket /\
    ((zoomLevel < 12)%Z \/ 4 <= length bucket).
Proof.
  intros Hgeo Houts Hin Hcl.
  destruct (Forall2_In_concat _ _ _ _ Houts Hin) as (bucket & items & Hb & He & Hi).
  destruct He as [Hpoints|item' Hitem Hlen Hz].
  - pose proof (buckets_GeoPoint locations zoomLevel Hgeo) as Hbs.
    rewrite Forall_forall in Hbs. specialize (Hbs _ Hb).
    rewrite Forall_forall in Hbs.
    rewrite (GeoPoint_not_cluster _ (Hbs _ Hi)) in Hcl. discriminate.
  - destruct Hi as [<-|[]].
    unfold Object_values in Hb. apply in_map_iff in Hb.
    destruct Hb as ([k b] & Hsnd & Hb). simpl in Hsnd. subst b.
    exists k, bucket. auto.
Qed.

(** A bucket the callback returns point by point sits in the render list
    as it is. *)
Lemma points_segment (locations : list Location) (zoomLevel : Z)
  (outs : list (list Location)) (k : string) (bucket : list Location) :
  Forall2 (emitted Number_toFixed zoomLevel)
    (Object_values (partition Number_toString locations zoomLevel)) outs ->
  In (k, bucket) (partition Number_toString locations zoomLevel) ->
  length bucket = 1 \/ (12 <= zoomLevel)%Z /\ length bucket <= 3 ->
  exists before after, concat outs = before ++ bucket ++ after.
Proof.
  intros Houts Hb Hsmall.
  assert (Hv : In bucket (Object_values (partition Number_toString locations zoomLevel)))
    by (unfold Object_values; change bucket with (snd (k, bucket)); now apply in_map).
  destruct (Forall2_In_l _ _ _ _ Houts Hv) as (items & B & A & He & ->).
  exists (concat B), (concat A).
  rewrite concat_app. simpl. f_equal. f_equal.
  destruct He as [_|item _ Hlen Hz]; [reflexivity | lia].
Qed.


(** ** The clustering function *)

Lemma recovered_outs (zoomLevel : Z) (buckets outs : list (list Location)) :
  Forall (Forall GeoPoint) buckets ->
  Forall2 (emitted Number_toFixed zoomLevel) buckets outs ->
  recovered (concat outs) = concat buckets.
Proof.
  intros Hgeo Houts. rewrite recovered_concat.
  induction Houts as [|b o bs os He _ IH]; simpl; [reflexivity|].
  inversion Hgeo; subst.
  rewrite (emitted_recovered _ _ _ ltac:(eassumption) He), IH by assumption.
  reflexivity.
Qed.

(** C1 (conservation).  On a list of points, whatever the zoom level, the
    call returns, and the points recovered from its list (the member list
    of every cluster, every other item itself) are the input points, each
    exactly once: the recovered records are a permutation of the input,
    and so are their ids. *)
Theorem conservation (locations : list Location) (zoomLevel : Z) :
  Forall GeoPoint locations ->
  exists items,
    clusterNearbyMarkers Number_toString Number_toFixed locations zoomLevel
      = Some items /\
    Permutation (recovered items) locations /\
    Permutation (map id (recovered items)) (map id locations).
Proof.
  intros Hgeo.
  destruct (clusterNearbyMarkers_cells locations zoomLevel) as (outs & Hcall & Houts).
  exists (concat outs). split; [assumption|].
  assert (Hperm : Permutation (recovered (concat outs)) locations).
  { rewrite (recovered_outs zoomLevel _ _
               (buckets_GeoPoint _ _ Hgeo) Houts).
    apply partition_values. }
  split; [assumption | apply Permutation_map, Hperm].
Qed.

(** C3 (zoom override).  At zoom 12 or more, a cell whose bucket holds 2
    or 3 points puts exactly these points into the render list, in a row
    and as they are; none of them is drawn as a cluster, and no cluster of
    the list has this bucket as its member list. *)
Theorem zoom_override (locations : list Location) (zoomLevel : Z)
  (k : string) (bucket : list Location) :
  Forall GeoPoint locations ->
  (12 <= zoomLevel)%Z ->
  In (k, bucket) (partition Number_toString locations zoomLevel) ->
  length bucket = 2 \/ length bucket = 3 ->
  exists items,
    clusterNearbyMarkers Number_toString Number_toFixed locations zoomLevel
      = Some items /\
    (exists before after, items = before ++ bucket ++ after) /\
    Forall (fun point => isCluster point = false) bucket /\
    (forall item, In item items -> isCluster item = true ->
                  clusterPoints item <> Some bucket).
Proof.
  intros Hgeo Hz Hb Hlen.
  destruct (clusterNearbyMarkers_cells locations zoomLevel) as (outs & Hcall & Houts).
  exists (concat outs). split; [assumption|]. split; [|split].
  - eapply points_segment; [eassumption | eassumption | right; lia].
  - pose proof (buckets_GeoPoint locations zoomLevel Hgeo) as Hbs.
    rewrite Forall_forall in Hbs.
    assert (Hg : Forall GeoPoint bucket)
      by (apply Hbs; unfold Object_values;
          change bucket with (snd (k, bucket)); now apply in_map).
    eapply Forall_impl; [|exact Hg]. apply GeoPoint_not_cluster.
  - intros item Hin Hcl Heq.
    destruct (cluster_origin _ _ _ _
                Hgeo Houts Hin Hcl) as (k' & b' & _ & Hitem & _ & Hbig).
    destruct (clusterItem_fields _ _ Hitem) as (Hpts & _).
    rewrite Hpts in Heq. injection Heq as ->. lia.
Qed.


(** C7 (empty input).  On the empty list the partition is empty and the
    call returns the empty render list, at every zoom level. *)
Theorem empty_input (zoomLevel : Z) :
  partition Number_toString [] zoomLevel = [] /\
  clusterNearbyMarkers Number_toString Number_toFixed [] zoomLevel = Some [].
Proof. split; reflexivity. Qed.

(** C9 (member list preservation).  The member list of every cluster of
    the render list is the bucket of one cell: the input records whose
    key is that cell's, the records themselves and in input order. *)
Theorem member_list_preserved (locations : list Location) (zoomLevel : Z) :
  Forall GeoPoint locations ->
  exists items,
    clusterNearbyMarkers Number_toString Number_toFixed locations zoomLevel
      = Some items /\
    forall item,
      In item items -> isCluster item = true ->
      exists k,
        In (k, filter (fun location =>
                         String.eqb (cellKey Number_toString
                                       (gridSize locations zoomLevel) location) k)
                 locations)
           (partition Number_toString locations zoomLevel) /\
        clusterPoints item =
        Some (filter (fun location =>
                        String.eqb (cellKey Number_toString
                                      (gridSize locations zoomLevel) location) k)
                locations).
Proof.
  intros Hgeo.
  destruct (clusterNearbyMarkers_cells locations zoomLevel) as (outs & Hcall & Houts).
  exists (concat outs). split; [assumption|].
  intros item Hin Hcl.
  destruct (cluster_origin _ _ _ _
              Hgeo Houts Hin Hcl) as (k & b & Hb & Hitem & _).
  destruct (clusterItem_fields _ _ Hitem) as (Hpts & _).
  exists k. pose proof Hb as Hb'. apply partition_In in Hb'.
  destruct Hb' as [<- _]. auto.
Qed.

Lemma outs_length (zoomLevel : Z) (buckets outs : list (list Location)) :
  Forall (Forall GeoPoint) buckets ->
  Forall2 (emitted Number_toFixed zoomLevel) buckets outs ->
  length (concat outs) <= length (concat buckets) /\
  (length (concat outs) < length (concat buckets) <->
   exists item, In item (concat outs) /\ isCluster item = true).
Proof.
  intros Hgeo Houts.
  induction Houts as [|b o bs os He _ IH]; simpl.
  - split; [lia|]. split; [lia | intros (item & Hin & _); destruct Hin].
  - inversion Hgeo as [|? ? Hb Hbs]; subst.
    destruct (IH Hbs) as [Hle Hiff]. rewrite !length_app.
    destruct He as [_|item Hitem Hlen _].
    + split; [lia|]. split.
      * intros Hlt. destruct Hiff as [Hex _].
        destruct Hex as (item & Hin & Hcl); [lia|].
        exists item. split; [apply in_or_app; now right | assumption].
      * intros (item & Hin & Hcl). apply in_app_or in Hin.
        destruct Hin as [Hin|Hin].
        -- rewrite Forall_forall in Hb.
           rewrite (GeoPoint_not_cluster _ (Hb _ Hin)) in Hcl. discriminate.
        -- destruct Hiff as [_ Hlt]. specialize (Hlt (ex_intro _ item (conj Hin Hcl))).
           lia.
    + simpl. split; [lia|]. split; [|lia].
      intros _. exists item. split; [now left|].
      eapply clusterItem_isCluster; eassumption.
Qed.

(** C10 (output size).  The render list is never longer than the input,
    and it is strictly shorter exactly when it holds a cluster. *)
Theorem output_size (locations : list Location) (zoomLevel : Z) :
  Forall GeoPoint locations ->
  exists items,
    clusterNearbyMarkers Number_toString Number_toFixed locations zoomLevel
      = Some items /\
    length items <= length locations /\
    (length items < length locations <->
     exists item, In item items /\ isCluster item = true).
Proof.
  intros Hgeo.
  destruct (clusterNearbyMarkers_cells locations zoomLevel) as (outs & Hcall & Houts).
  exists (concat outs). split; [assumption|].
  rewrite <- (Permutation_length (partition_values locations zoomLevel)).
  apply (outs_length zoomLevel); [|assumption].
  apply buckets_GeoPoint, Hgeo.
Qed.


(** ** Cluster statistics *)

Lemma sum_map (f : Location -> float) (cluster : list Location) (start : float) :
  fold_left (fun sum loc => (sum + f loc)%float) cluster start
  = fold_left add (map f cluster) start.
Proof.
  revert start. induction cluster as [|p ps IH]; simpl; intros; [reflexivity|].
  apply IH.
Qed.

Lemma or_zero_sign (x : option float) :
  or_zero x = number_or_zero x \/
  (or_zero x = 0%float /\ number_or_zero x = (- 0)%float).
Proof.
  destruct x as [v|]; [|now left]. unfold or_zero, ToBoolean, number_or_zero.
  destruct (is_nan v); simpl; [now left|].
  destruct (is_zero v) eqn:Hz; simpl; [|now left].
  destruct (NumberFacts.eqb_zero v Hz) as [->| ->]; auto.
Qed.

(** The mean of the values after [|| 0] is the mean of the measurements
    with 0 for a missing one and for a NaN: the sum starts from [+0], so the
    sign that [||] takes from a negative zero makes no difference. *)
Lemma or_zero_mean (field : Location -> option float) (points : list Location) :
  mean (map (fun loc => or_zero (field loc)) points)
  = mean (map (fun loc => number_or_zero (field loc)) points).
Proof.
  unfold mean. rewrite !length_map. f_equal.
  apply NumberFacts.sum_signed_zeros; [discriminate|].
  induction points as [|p ps IH]; simpl; constructor; [apply or_zero_sign | exact IH].
Qed.

(** The five averages of a cluster record, as the source computes them. *)
Lemma clusterItem_averages (cluster : list Location) (item : Location) :
  clusterItem Number_toFixed cluster = Some item ->
  lat item = mean (map lat cluster) /\
  lng item = mean (map lng cluster) /\
  reflectivity item
  = Some (mean (map (fun loc => or_zero (reflectivity loc)) cluster)) /\
  rainfall_rate item
  = Some (mean (map (fun loc => or_zero (rainfall_rate loc)) cluster)) /\
  altitude item
  = Some (mean (map (fun loc => or_zero (altitude loc)) cluster)).
Proof.
  unfold clusterItem. destruct (nth_error cluster 0); [|discriminate].
  intros [= <-]. simpl. unfold mean. rewrite !sum_map, !length_map. auto.
Qed.

Lemma clusterOrPoints_cluster (zoomLevel : Z) (cluster : list Location)
  (item : Location) :
  clusterItem Number_toFixed cluster = Some item ->
  2 <= length cluster ->
  (zoomLevel < 12)%Z \/ 4 <= length cluster ->
  clusterOrPoints Number_toFixed zoomLevel cluster = Some [item].
Proof.
  intros Hitem Hlen Hz. unfold clusterOrPoints. rewrite Hitem.
  destruct (Nat.eqb_spec (length cluster) 1) as [H1|_]; [lia|].
  destruct (Z.leb_spec 12 zoomLevel) as [Hge|_];
    [destruct (Nat.leb_spec (length cluster) 3) as [H3|_]; [lia|]|];
    reflexivity.
Qed.

(** Without a NaN among the values, 0 only stands for the missing ones. *)
Lemma number_or_zero_values (field : Location -> option float)
  (points : list Location) :
  Forall (fun loc => forall v, field loc = Some v -> is_nan v = false) points ->
  map (fun loc => number_or_zero (field loc)) points
  = map (fun loc => value_or_zero (field loc)) points.
Proof.
  intros H. apply map_ext_in. intros loc Hin.
  rewrite Forall_forall in H. specialize (H loc Hin).
  destruct (field loc) as [v|]; [|reflexivity].
  simpl. rewrite (H v eq_refl). reflexivity.
Qed.

(** What the callback makes of a bucket that is to be drawn as a cluster. *)
Lemma bucket_cluster (zoomLevel : Z) (buckets outs : list (list Location))
  (bucket : list Location) :
  Forall2 (emitted Number_toFixed zoomLevel) buckets outs ->
  In bucket buckets ->
  2 <= length bucket -> (zoomLevel < 12)%Z \/ 4 <= length bucket ->
  exists item,
    In item (concat outs) /\ clusterItem Number_toFixed bucket = Some item.
Proof.
  intros Houts Hb Hlen Hz.
  destruct (Forall2_In_l _ _ _ _ Houts Hb) as (out & before & after & He & ->).
  destruct He as [Hpoints|item Hitem _ _]; [lia|].
  exists item. split; [|assumption].
  rewrite concat_app, in_app_iff. right. simpl. now left.
Qed.

(** C5 (cluster statistics), with a NaN measurement counted like a missing
    one.  Every cluster of the render list has for [lat] and [lng] the mean
    of its members' coordinates, and for [reflectivity], [rainfall_rate] and
    [altitude] the mean of its members' values, 0 standing for a missing
    value and for a NaN; so, where no member has a NaN for it, the mean of
    the values with 0 for the missing ones.  Every bucket of two points or more that is not
    under the zoom override (below zoom 12, or four points and more) is in
    the render list as one such cluster.  In particular a bucket of three
    points with rainfall rates 1, 2 and 3 and reflectivities [r1] and [r2],
    both Numbers, the third one missing, is below zoom 12 one cluster of the
    render list with rainfall rate 2 and reflectivity [(r1 + r2 + 0) / 3]. *)
Theorem cluster_statistics (locations : list Location) (zoomLevel : Z) :
  Forall GeoPoint locations ->
  let average (substitute : option float -> float)
      (field : Location -> option float) (points : list Location) :=
    Some (mean (map (fun loc => substitute (field loc)) points)) in
  let numbers (field : Location -> option float) (points : list Location) :=
    Forall (fun loc => forall v, field loc = Some v -> is_nan v = false) points in
  let statistics (item : Location) (points : list Location) :=
    lat item = mean (map lat points) /\
    lng item = mean (map lng points) /\
    reflectivity item = average number_or_zero reflectivity points /\
    rainfall_rate item = average number_or_zero rainfall_rate points /\
    altitude item = average number_or_zero altitude points /\
    (numbers reflectivity points ->
     reflectivity item = average value_or_zero reflectivity points) /\
    (numbers rainfall_rate points ->
     rainfall_rate item = average value_or_zero rainfall_rate points) /\
    (numbers altitude points ->
     altitude item = average value_or_zero altitude points) in
  exists items,
    clusterNearbyMarkers Number_toString Number_toFixed locations zoomLevel
    = Some items /\
    (forall item points,
        In item items -> isCluster item = true ->
        clusterPoints item = Some points ->
        statistics item points) /\
    (forall k bucket,
        In (k, bucket) (partition Number_toString locations zoomLevel) ->
        2 <= length bucket ->
        (zoomLevel < 12)%Z \/ 4 <= length bucket ->
        exists item,
          In item items /\ isCluster item = true /\
          clusterPoints item = Some bucket /\ statistics item bucket) /\
    (forall k a b c r1 r2,
        In (k, [a; b; c]) (partition Number_toString locations zoomLevel) ->
        (zoomLevel < 12)%Z ->
        map rainfall_rate [a; b; c] = [Some 1; Some 2; Some 3]%float ->
        is_nan r1 = false -> is_nan r2 = false ->
        map reflectivity [a; b; c] = [Some r1; Some r2; None] \/
        map reflectivity [a; b; c] = [Some r1; None; Some r2] \/
        map reflectivity [a; b; c] = [None; Some r1; Some r2] ->
        exists item,
          In item items /\ isCluster item = true /\
          clusterPoints item = Some [a; b; c] /\
          rainfall_rate item = Some 2%float /\
          reflectivity item = Some ((r1 + r2 + 0) / 3)%float).
Proof.
  intros Hgeo average numbers statistics.
  destruct (clusterNearbyMarkers_cells locations zoomLevel) as (outs & Hcall & Houts).
  assert (Hstat : forall bucket item,
             clusterItem Number_toFixed bucket = Some item ->
             statistics item bucket).
  { intros bucket item Hitem.
    destruct (clusterItem_averages _ _ Hitem) as (Hlat & Hlng & Href & Hrain & Halt).
    rewrite or_zero_mean in Href, Hrain, Halt.
    unfold statistics, average, numbers.
    repeat (split; [assumption|]).
    split; [|split]; intros Hnum;
      rewrite <- (number_or_zero_values _ _ Hnum); assumption. }
  assert (Hbucket : forall k bucket,
             In (k, bucket) (partition Number_toString locations zoomLevel) ->
             2 <= length bucket ->
             (zoomLevel < 12)%Z \/ 4 <= length bucket ->
             exists item,
               In item (concat outs) /\ isCluster item = true /\
               clusterPoints item = Some bucket /\ statistics item bucket).
  { intros k bucket Hb Hlen Hz.
    assert (Hin : In bucket
                    (Object_values (partition Number_toString locations zoomLevel)))
      by (unfold Object_values; change bucket with (snd (k, bucket));
          now apply in_map).
    destruct (bucket_cluster _ _ _ _ Houts Hin Hlen Hz) as (item & Hi & Hitem).
    exists item. split; [assumption|].
    split; [eapply clusterItem_isCluster; eassumption|].
    split; [apply (clusterItem_fields _ _ Hitem) | apply Hstat, Hitem]. }
  exists (concat outs). split; [assumption|]. split; [|split].
  - intros item points Hin Hcl Hpoints.
    destruct (cluster_origin _ _ _ _ Hgeo Houts Hin Hcl)
      as (k & bucket & _ & Hitem & _).
    destruct (clusterItem_fields _ _ Hitem) as (Hpts & _).
    rewrite Hpts in Hpoints. injection Hpoints as <-.
    apply Hstat, Hitem.
  - exact Hbucket.
  - intros k a b c r1 r2 Hb Hz Hrain Hr1 Hr2 Hrefl.
    destruct (Hbucket k [a; b; c] Hb ltac:(simpl; lia) ltac:(now left))
      as (item & Hin & Hcl & Hpts & _ & _ & Href & Hrate & _).
    cbv beta in Href, Hrate.
    exists item. repeat (split; [assumption|]).
    unfold average, mean in Href, Hrate.
    rewrite length_map in Href, Hrate.
    change (Number_of_nat (length [a; b; c])) with 3%float in Href, Hrate.
    rewrite <- (map_map rainfall_rate number_or_zero), Hrain in Hrate.
    rewrite <- (map_map reflectivity number_or_zero) in Href.
    split; [exact Hrate|]. rewrite Href. do 2 f_equal.
    assert (H0 : Prim2SF 0 <> S754_zero true) by discriminate.
    destruct Hrefl as [->|[->| ->]]; simpl; rewrite Hr1, Hr2.
    + rewrite NumberFacts.add_zero_r
        by (apply NumberFacts.add_neg_zero, NumberFacts.add_neg_zero, H0).
      apply NumberFacts.sum_of_two.
    + rewrite (NumberFacts.add_zero_r (0 + r1))
        by (apply NumberFacts.add_neg_zero, H0).
      apply NumberFacts.sum_of_two.
    + change (0 + 0)%float with 0%float. apply NumberFacts.sum_of_two.
Qed.

(** C6 (render policy threshold).  With at most 100 candidate points the
    render list is the candidate list itself, no clustering done, and none of
    its points is drawn as a cluster; with more than 100 the render list is
    what the clustering function returns, and it does return. *)
Theorem render_policy (filteredLocations : list Location) (mapZoom : Z) :
  (length filteredLocations <= 100 ->
   locationsToRender Number_toString Number_toFixed filteredLocations mapZoom
   = Some filteredLocations /\
   (Forall GeoPoint filteredLocations ->
    Forall (fun item => isCluster item = false) filteredLocations)) /\
  (100 < length filteredLocations ->
   locationsToRender Number_toString Number_toFixed filteredLocations mapZoom
   = clusterNearbyMarkers Number_toString Number_toFixed filteredLocations mapZoom /\
   exists items,
     locationsToRender Number_toString Number_toFixed filteredLocations mapZoom
     = Some items).
Proof.
  unfold locationsToRender, shouldUseCluster. split; intros Hlen.
  - destruct (Nat.ltb_spec 100 (length filteredLocations)); [lia|]. simpl.
    split; [reflexivity|].
    intros Hgeo. eapply Forall_impl; [|exact Hgeo]. apply GeoPoint_not_cluster.
  - destruct (Nat.ltb_spec 100 (length filteredLocations)); [|lia]. simpl.
    split; [reflexivity|].
    destruct (clusterNearbyMarkers_cells filteredLocations mapZoom) as (outs & Hcall & _).
    eauto.
Qed.



(** ** Further properties of the clustering function *)

(** The partition files the points by cell key: the keys of the [clusters]
    object are pairwise distinct, no bucket is empty, a bucket holds the
    input points of its key in input order, and every input point is in the
    bucket of its own key. *)
Theorem partition_classes (locations : list Location) (zoomLevel : Z) :
  let key := cellKey Number_toString (gridSize locations zoomLevel) in
  NoDup (map fst (partition Number_toString locations zoomLevel)) /\
  (forall k bucket,
      In (k, bucket) (partition Number_toString locations zoomLevel) ->
      bucket <> [] /\
      bucket = filter (fun location => String.eqb (key location) k) locations) /\
  (forall point,
      In point locations ->
      exists bucket,
        In (key point, bucket) (partition Number_toString locations zoomLevel) /\
        In point bucket).
Proof.
  intros key. split; [|split].
  - apply NoDup_fill. constructor.
  - intros k bucket Hb. apply partition_In in Hb. tauto.
  - intros point Hp.
    exists (filter (fun location => String.eqb (key location) (key point)) locations).
    assert (Hin : In point (filter (fun location =>
                                      String.eqb (key location) (key point))
                              locations))
      by (apply filter_In; split; [assumption | apply String.eqb_refl]).
    split; [|assumption].
    apply partition_In. split; [reflexivity|].
    intros Hnil. fold key in Hnil. rewrite Hnil in Hin. destruct Hin.
Qed.

(** Points that lie in pairwise different cells come back untouched: the
    render list is the input list, in input order. *)
Theorem separated_points (locations : list Location) (zoomLevel : Z) :
  NoDup (map (cellKey Number_toString (gridSize locations zoomLevel)) locations) ->
  clusterNearbyMarkers Number_toString Number_toFixed locations zoomLevel
  = Some locations.
Proof.
  intros Hnd. unfold clusterNearbyMarkers, partition.
  rewrite fill_distinct by (assumption || intros ? ? []).
  simpl app. unfold Object_values. rewrite map_map. simpl.
  clear Hnd. generalize (gridSize locations zoomLevel). intros _.
  induction locations as [|l ls IH]; simpl; [reflexivity|].
  rewrite IH. reflexivity.
Qed.

(** Points that all fall into the cell of the first one, at least two of
    them below zoom 12 and at least four from zoom 12 on, come back as one
    cluster whose member list is the whole input. *)
Theorem one_cell_one_cluster (first : Location) (others : list Location)
  (zoomLevel : Z) :
  let locations := first :: others in
  let key := cellKey Number_toString (gridSize locations zoomLevel) in
  (forall point, In point others -> key point = key first) ->
  others <> [] ->
  (zoomLevel < 12)%Z \/ 3 <= length others ->
  exists item,
    clusterNearbyMarkers Number_toString Number_toFixed locations zoomLevel
    = Some [item] /\
    clusterPoints item = Some locations /\
    clusterSize item = Some (length locations) /\
    isCluster item = true.
Proof.
  intros locations key Hsame Hne Hz.
  destruct (clusterItem_defined locations) as [item Hitem]; [discriminate|].
  assert (Hlen : 2 <= length locations)
    by (unfold locations; destruct others; simpl; [congruence | lia]).
  exists item. split; [|split; [|split]].
  - unfold clusterNearbyMarkers, partition. fold locations. fold key.
    unfold locations at 1. rewrite fill_cons. simpl push.
    rewrite fill_same by assumption. simpl.
    change (first :: others) with locations.
    rewrite (clusterOrPoints_cluster zoomLevel locations item Hitem Hlen);
      [reflexivity|].
    destruct Hz; [now left | right; unfold locations; simpl; lia].
  - apply (clusterItem_fields _ _ Hitem).
  - apply (clusterItem_fields _ _ Hitem).
  - apply (clusterItem_isCluster _ _ Hitem Hlen).
Qed.

Lemma map_flat_ext {A B : Type} (f g : A -> option (list B)) (xs : list A) :
  (forall x, In x xs -> f x = g x) -> map_flat f xs = map_flat g xs.
Proof.
  induction xs as [|x xs IH]; simpl; intros H; [reflexivity|].
  rewrite (H x) by now left. rewrite IH by (intros; apply H; now right).
  reflexivity.
Qed.

(** Up to zoom 8 the zoom level plays no part: the cell size, the
    partition and the render list are those of zoom 8. *)
Theorem low_zoom_invariance (locations : list Location) (zoom1 zoom2 : Z) :
  (zoom1 <= 8)%Z -> (zoom2 <= 8)%Z ->
  gridSize locations zoom1 = gridSize locations zoom2 /\
  partition Number_toString locations zoom1
  = partition Number_toString locations zoom2 /\
  clusterNearbyMarkers Number_toString Number_toFixed locations zoom1
  = clusterNearbyMarkers Number_toString Number_toFixed locations zoom2.
Proof.
  intros H1 H2.
  assert (Hgrid : gridSize locations zoom1 = gridSize locations zoom2).
  { unfold gridSize, baseGridSize, zoomFactor.
    destruct (Z.leb_spec 12 zoom1); [lia|]. destruct (Z.leb_spec 12 zoom2); [lia|].
    rewrite !Z.max_l by lia. reflexivity. }
  assert (Hpart : partition Number_toString locations zoom1
                  = partition Number_toString locations zoom2)
    by (unfold partition; rewrite Hgrid; reflexivity).
  split; [assumption|]. split; [assumption|].
  unfold clusterNearbyMarkers. rewrite Hpart. apply map_flat_ext.
  intros cluster _. unfold clusterOrPoints.
  destruct (Z.leb_spec 12 zoom1); [lia|]. destruct (Z.leb_spec 12 zoom2); [lia|].
  reflexivity.
Qed.

Lemma represented_outs (zoomLevel : Z) (buckets outs : list (list Location)) :
  Forall (Forall GeoPoint) buckets ->
  Forall2 (emitted Number_toFixed zoomLevel) buckets outs ->
  list_sum (map represented (concat outs)) = length (concat buckets).
Proof.
  intros Hgeo Houts.
  induction Houts as [|b o bs os He _ IH]; simpl; [reflexivity|].
  inversion Hgeo as [|? ? Hb Hbs]; subst.
  rewrite map_app, list_sum_app, length_app, (IH Hbs). f_equal.
  destruct He as [_|item Hitem Hlen _].
  - clear -Hb. induction Hb as [|p ps Hp _ IHp]; simpl; [reflexivity|].
    unfold represented at 1. rewrite (GeoPoint_not_cluster p Hp), IHp. reflexivity.
  - simpl. unfold represented. rewrite (clusterItem_isCluster _ _ Hitem Hlen).
    destruct (clusterItem_fields _ _ Hitem) as (_ & -> & _). lia.
Qed.

Lemma represented_positive (zoomLevel : Z) (buckets outs : list (list Location))
  (item : Location) :
  Forall (Forall GeoPoint) buckets ->
  Forall2 (emitted Number_toFixed zoomLevel) buckets outs ->
  In item (concat outs) -> 1 <= represented item.
Proof.
  intros Hgeo Houts Hin.
  destruct (Forall2_In_concat _ _ _ _ Houts Hin) as (bucket & out & Hb & He & Hi).
  rewrite Forall_forall in Hgeo. specialize (Hgeo _ Hb).
  rewrite Forall_forall in Hgeo.
  destruct He as [_|item' Hitem Hlen _].
  - unfold represented. rewrite (GeoPoint_not_cluster item (Hgeo _ Hi)). lia.
  - destruct Hi as [<-|[]]. unfold represented.
    rewrite (clusterItem_isCluster _ _ Hitem Hlen).
    destruct (clusterItem_fields _ _ Hitem) as (_ & -> & _). lia.
Qed.

Lemma filter_sum {A : Type} (weight : A -> nat) (keep : A -> bool) (xs : list A) :
  list_sum (map weight (filter keep xs)) <= list_sum (map weight xs).
Proof.
  induction xs as [|x xs IH]; simpl; [lia|]. destruct (keep x); simpl; lia.
Qed.

Lemma filter_sum_all {A : Type} (weight : A -> nat) (keep : A -> bool)
  (xs : list A) :
  (forall x, In x xs -> 1 <= weight x) ->
  list_sum (map weight (filter keep xs)) = list_sum (map weight xs) ->
  filter keep xs = xs.
Proof.
  induction xs as [|x xs IH]; simpl; intros Hpos Hsum; [reflexivity|].
  pose proof (filter_sum weight keep xs) as Hle.
  pose proof (Hpos x (or_introl eq_refl)) as Hx.
  destruct (keep x); simpl in Hsum; [|lia].
  f_equal. apply IH; [intros; apply Hpos; now right | lia].
Qed.

(** With finite coordinates, and fewer than [2^53] points, every item of
    the render list passes the renderer's test: the coordinates of a cluster
    are means of finite Numbers. *)
Lemma render_list_valid (locations : list Location) (zoomLevel : Z)
  (outs : list (list Location)) (item : Location) :
  Forall (fun point => is_finite (lat point) = true /\ is_finite (lng point) = true)
    locations ->
  (Z.of_nat (length locations) < 2 ^ 53)%Z ->
  Forall2 (emitted Number_toFixed zoomLevel)
    (Object_values (partition Number_toString locations zoomLevel)) outs ->
  In item (concat outs) -> validCoordinates item = true.
Proof.
  intros Hfin Hlen Houts Hin.
  destruct (Forall2_In_concat _ _ _ _ Houts Hin) as (bucket & out & Hb & He & Hi).
  assert (Hpoints : forall point, In point bucket ->
                      is_finite (lat point) = true /\ is_finite (lng point) = true).
  { intros point Hp. rewrite Forall_forall in Hfin.
    eapply Hfin, bucket_points; eassumption. }
  assert (Hsize : (Z.of_nat (length bucket) < 2 ^ 53)%Z).
  { unfold Object_values in Hb. apply in_map_iff in Hb.
    destruct Hb as ([k bucket'] & Hsnd & Hb). simpl in Hsnd. subst bucket'.
    apply partition_In in Hb. destruct Hb as [-> _].
    pose proof (filter_length_le
                  (fun location =>
                     String.eqb (cellKey Number_toString
                                   (gridSize locations zoomLevel) location) k)
                  locations).
    lia. }
  unfold validCoordinates.
  destruct He as [_|item' Hitem Hsome _].
  - destruct (Hpoints item Hi) as [Hlat Hlng].
    rewrite (NumberFacts.finite_number _ Hlat), (NumberFacts.finite_number _ Hlng).
    reflexivity.
  - destruct Hi as [<-|[]].
    destruct (clusterItem_averages _ _ Hitem) as (-> & -> & _).
    assert (Hne : bucket <> []) by (destruct bucket; [simpl in Hsome; lia | discriminate]).
    rewrite !NumberFacts.mean_number; [reflexivity | | | | | | ].
    all: try (destruct bucket; [congruence | discriminate]).
    all: try (rewrite length_map; exact Hsize).
    all: apply Forall_map, Forall_forall; intros point Hp; apply (Hpoints point Hp).
Qed.

Lemma filter_all {A : Type} (keep : A -> bool) (xs : list A) :
  (forall x, In x xs -> keep x = true) -> filter keep xs = xs.
Proof.
  induction xs as [|x xs IH]; intros H; [reflexivity|].
  simpl. rewrite (H x) by now left.
  f_equal. apply IH. intros; apply H; now right.
Qed.

(** The render list accounts for every point, and the markers drawn for
    no more.  The cluster sizes and one for each other item add up to the
    number of input points over the render list.  Over the markers drawn,
    which leave out every item with a coordinate that is not a Number, they
    add up to at most that number, and to that number only when no item is
    left out.  No item is left out when the coordinates of the points are
    finite and the points fewer than [2^53].  This holds of the list the
    clustering function returns and of the list the renderer maps over, which
    is that one or the list of the points itself. *)
Theorem marker_counts (locations : list Location) (zoomLevel : Z) :
  Forall GeoPoint locations ->
  let accounted (items : list Location) :=
    list_sum (map represented items) = length locations /\
    list_sum (map represented (drawnMarkers items)) <= length locations /\
    (list_sum (map represented (drawnMarkers items)) = length locations <->
     drawnMarkers items = items) /\
    (Forall (fun point => is_finite (lat point) = true /\
                          is_finite (lng point) = true) locations ->
     (Z.of_nat (length locations) < 2 ^ 53)%Z ->
     drawnMarkers items = items) in
  (exists items,
      clusterNearbyMarkers Number_toString Number_toFixed locations zoomLevel
      = Some items /\ accounted items) /\
  (exists items,
      locationsToRender Number_toString Number_toFixed locations zoomLevel
      = Some items /\ accounted items).
Proof.
  intros Hgeo accounted.
  assert (Hacc : forall items,
             list_sum (map represented items) = length locations ->
             (forall item, In item items -> 1 <= represented item) ->
             (Forall (fun point => is_finite (lat point) = true /\
                                   is_finite (lng point) = true) locations ->
              (Z.of_nat (length locations) < 2 ^ 53)%Z ->
              forall item, In item items -> validCoordinates item = true) ->
             accounted items).
  { intros items Hsum Hpos Hvalid. unfold accounted, drawnMarkers.
    split; [exact Hsum|]. split; [rewrite <- Hsum; apply filter_sum|].
    split; [split; [|intros ->; exact Hsum]|].
    - rewrite <- Hsum. apply filter_sum_all, Hpos.
    - intros Hfin Hlen. apply filter_all, Hvalid; assumption. }
  destruct (clusterNearbyMarkers_cells locations zoomLevel) as (outs & Hcall & Houts).
  assert (Hclustered : accounted (concat outs)).
  { apply Hacc.
    - rewrite (represented_outs zoomLevel _ _ (buckets_GeoPoint _ _ Hgeo) Houts).
      apply Permutation_length, partition_values.
    - intros item Hin.
      exact (represented_positive zoomLevel _ _ item
               (buckets_GeoPoint _ _ Hgeo) Houts Hin).
    - intros Hfin Hlen item.
      apply (render_list_valid locations zoomLevel); assumption. }
  split; [exists (concat outs); split; assumption|].
  unfold locationsToRender. destruct (_ && _).
  - exists (concat outs). split; assumption.
  - exists locations. split; [reflexivity|].
    assert (Hone : forall item, In item locations -> represented item = 1).
    { intros item Hin. rewrite Forall_forall in Hgeo. unfold represented.
      rewrite (GeoPoint_not_cluster item (Hgeo item Hin)). reflexivity. }
    apply Hacc.
    + clear -Hone. induction locations as [|p ps IH]; simpl; [reflexivity|].
      rewrite (Hone p) by now left.
      rewrite IH by (intros; apply Hone; now right). reflexivity.
    + intros item Hin. rewrite (Hone item Hin). lia.
    + intros Hfin _ item Hin. rewrite Forall_forall in Hfin.
      destruct (Hfin item Hin) as [Hlat Hlng]. unfold validCoordinates.
      rewrite (NumberFacts.finite_number _ Hlat), (NumberFacts.finite_number _ Hlng).
      reflexivity.
Qed.

(** From zoom 12 on no cluster stands for fewer than four points, and a
    render list without a cluster is the input in another order. *)
Theorem detail_zoom_clusters (locations : list Location) (zoomLevel : Z) :
  Forall GeoPoint locations ->
  exists items,
    clusterNearbyMarkers Number_toString Number_toFixed locations zoomLevel
    = Some items /\
    (forall item points,
        (12 <= zoomLevel)%Z -> In item items -> isCluster item = true ->
        clusterPoints item = Some points -> 4 <= length points) /\
    ((forall item, In item items -> isCluster item = false) ->
     Permutation items locations).
Proof.
  intros Hgeo.
  destruct (clusterNearbyMarkers_cells locations zoomLevel) as (outs & Hcall & Houts).
  exists (concat outs). split; [assumption|]. split.
  - intros item points Hz Hin Hcl Hpoints.
    destruct (cluster_origin _ _ _ _ Hgeo Houts Hin Hcl)
      as (k & bucket & _ & Hitem & _ & Hbig).
    destruct (clusterItem_fields _ _ Hitem) as (Hpts & _).
    rewrite Hpts in Hpoints. injection Hpoints as <-. lia.
  - intros Hnone.
    rewrite <- (recovered_no_cluster (concat outs)) by assumption.
    rewrite (recovered_outs zoomLevel _ _ (buckets_GeoPoint _ _ Hgeo) Houts).
    apply partition_values.
Qed.

(** [x || 0] in full: 0 for a missing value and for a NaN, and for any
    other value a Number equal to it (the value itself, [+0] for a zero). *)
Lemma or_zero_spec (x : option float) :
  match x with
  | None => or_zero x = 0%float
  | Some v =>
      if is_nan v then or_zero x = 0%float
      else (or_zero x =? v)%float = true
  end.
Proof.
  destruct x as [v|]; [|reflexivity]. unfold or_zero, ToBoolean.
  destruct (is_nan v) eqn:Hnan; simpl; [reflexivity|].
  destruct (is_zero v) eqn:Hz; simpl.
  - destruct (NumberFacts.eqb_zero v Hz) as [->| ->]; reflexivity.
  - unfold is_nan in Hnan. now apply negb_false_iff in Hnan.
Qed.

Lemma or_zero_number (x : option float) : is_nan (or_zero x) = false.
Proof.
  destruct x as [v|]; [|reflexivity]. unfold or_zero, ToBoolean.
  destruct (is_nan v) eqn:Hnan; simpl; [reflexivity|].
  destruct (is_zero v); simpl; [reflexivity | assumption].
Qed.

(** The identity of a cluster: its id is made of the id of the first point
    of its cell and of the member count, its name tells the count, and its
    category is ["cluster"]. *)
Theorem cluster_identity (locations : list Location) (zoomLevel : Z) :
  Forall GeoPoint locations ->
  exists items,
    clusterNearbyMarkers Number_toString Number_toFixed locations zoomLevel
    = Some items /\
    forall item,
      In item items -> isCluster item = true ->
      exists first others,
        clusterPoints item = Some (first :: others) /\
        In first locations /\
        id item
        = ("cluster_" ++ id first ++ "_" ++ String_of_nat (S (length others)))%string /\
        name item
        = ("Cluster (" ++ String_of_nat (S (length others)) ++ " points)")%string /\
        category item = "cluster" /\
        description item <> None.
Proof.
  intros Hgeo.
  destruct (clusterNearbyMarkers_cells locations zoomLevel) as (outs & Hcall & Houts).
  exists (concat outs). split; [assumption|].
  intros item Hin Hcl.
  destruct (cluster_origin _ _ _ _ Hgeo Houts Hin Hcl)
    as (k & bucket & Hb & Hitem & Hlen & _).
  destruct bucket as [|first others]; [simpl in Hlen; lia|].
  exists first, others.
  assert (Hfirst : In first locations).
  { apply (bucket_points locations zoomLevel (first :: others)); [|now left].
    unfold Object_values. change (first :: others) with (snd (k, first :: others)).
    now apply in_map. }
  unfold clusterItem in Hitem. simpl nth_error in Hitem.
  injection Hitem as <-. simpl. repeat split; try assumption. discriminate.
Qed.

(** The averages of a cluster for measurements of any kind: each is the
    mean of the members' values after [|| 0], which puts 0 in the place of a
    missing value and of a NaN and leaves any other Number as it is (up to
    the sign of a zero); so a NaN measurement never makes an average NaN by
    itself. *)
Theorem statistics_of_any_measurements (locations : list Location) (zoomLevel : Z) :
  Forall GeoPoint locations ->
  exists items,
    clusterNearbyMarkers Number_toString Number_toFixed locations zoomLevel
    = Some items /\
    forall item points,
      In item items -> isCluster item = true ->
      clusterPoints item = Some points ->
      exists refl rain alt : Location -> float,
        reflectivity item = Some (mean (map refl points)) /\
        rainfall_rate item = Some (mean (map rain points)) /\
        altitude item = Some (mean (map alt points)) /\
        forall loc,
          let agrees (x : option float) (used : float) :=
            match x with
            | None => used = 0%float
            | Some v => if is_nan v then used = 0%float
                        else (used =? v)%float = true
            end in
          agrees (reflectivity loc) (refl loc) /\
          agrees (rainfall_rate loc) (rain loc) /\
          agrees (altitude loc) (alt loc).
Proof.
  intros Hgeo.
  destruct (clusterNearbyMarkers_cells locations zoomLevel) as (outs & Hcall & Houts).
  exists (concat outs). split; [assumption|].
  intros item points Hin Hcl Hpoints.
  destruct (cluster_origin _ _ _ _ Hgeo Houts Hin Hcl)
    as (k & bucket & _ & Hitem & _).
  destruct (clusterItem_fields _ _ Hitem) as (Hpts & _).
  rewrite Hpts in Hpoints. injection Hpoints as <-.
  destruct (clusterItem_averages _ _ Hitem) as (_ & _ & Href & Hrain & Halt).
  exists (fun loc => or_zero (reflectivity loc)),
         (fun loc => or_zero (rainfall_rate loc)),
         (fun loc => or_zero (altitude loc)).
  repeat split; try assumption.
  - apply (or_zero_spec (reflectivity loc)).
  - apply (or_zero_spec (rainfall_rate loc)).
  - apply (or_zero_spec (altitude loc)).
Qed.

(** The buckets come in the order in which their cells first appear in
    the input, and two points at one position are never split: they are in
    the same bucket. *)
Theorem bucket_order (locations : list Location) (zoomLevel : Z) :
  let key := cellKey Number_toString (gridSize locations zoomLevel) in
  map fst (partition Number_toString locations zoomLevel)
  = first_seen (map key locations) [] /\
  (forall p q,
      In p locations -> In q locations ->
      lat p = lat q -> lng p = lng q ->
      exists k bucket,
        In (k, bucket) (partition Number_toString locations zoomLevel) /\
        In p bucket /\ In q bucket).
Proof.
  intros key. split; [apply (keys_fill key locations [])|].
  intros p q Hp Hq Hlat Hlng.
  assert (Hkey : key q = key p)
    by (unfold key, cellKey; rewrite Hlat, Hlng; reflexivity).
  exists (key p),
    (filter (fun location => String.eqb (key location) (key p)) locations).
  assert (Hin : forall r, In r locations -> key r = key p ->
                In r (filter (fun location => String.eqb (key location) (key p))
                        locations))
    by (intros r Hr Hk; apply filter_In; split;
        [assumption | rewrite Hk; apply String.eqb_refl]).
  split; [|split; [apply Hin | apply Hin]; auto].
  apply partition_In. split; [reflexivity|].
  intros Hnil. specialize (Hin p Hp eq_refl). fold key in Hnil.
  rewrite Hnil in Hin. destruct Hin.
Qed.

End RenderList.

(** ** Markers, globe points, searches and the list *)

(** The radius of a marker is never below 4, whatever the record and
    whatever [Math.log10] returns.  The radius of a cluster is never above
    15; the radius of any other marker is a Number between 4 and 10, even
    for a missing, NaN or infinite rainfall rate. *)
Theorem marker_radius_bounds (Math_log10 : float -> float) (location : Location) :
  (markerRadius Math_log10 location <? 4)%float = false /\
  if isCluster location
  then (15 <? markerRadius Math_log10 location)%float = false
  else (4 <=? markerRadius Math_log10 location)%float = true /\
       (markerRadius Math_log10 location <=? 10)%float = true.
Proof.
  unfold markerRadius.
  destruct (isCluster location).
  - match goal with
    | |- context [Math_min [15%float; ?t]] =>
        pose proof (NumberFacts.clamp_bounds 4 15 t eq_refl eq_refl eq_refl)
          as (Hlo & Hhi & _)
    end.
    split; assumption.
  - pose proof (NumberFacts.clamp_bounds 4 10
                  (5 + or_zero (rainfall_rate location) * 2)%float
                  eq_refl eq_refl eq_refl) as (Hlo & _ & Hnum).
    split; [assumption|]. apply Hnum.
    apply (NumberFacts.add_number 5 _ false 5629499534213120 (-50) eq_refl).
    apply (NumberFacts.mul_number _ 2 false 4503599627370496 (-51) eq_refl).
    apply or_zero_number.
Qed.

(** A point of the globe is never drawn below the altitude 0.001: its
    altitude is a Number, at least 0.001, whatever the record it comes from,
    and it is 0.001 for a record without an altitude. *)
Theorem globe_altitude_floor (location : Location) :
  Forall (fun d => (0.001 <=? Globe.pointAltitude d)%float = true)
    (Globe.pointsData [location]) /\
  (altitude location = None ->
   map Globe.pointAltitude (Globe.pointsData [location]) = [0.001%float]).
Proof.
  destruct location as [i n la ln c r rr al cs cp d]. simpl. split.
  - repeat constructor. unfold Globe.pointAltitude. simpl Globe.altitude.
    apply NumberFacts.ltb_false_leb;
      [ | reflexivity | apply NumberFacts.Math_max_lower; reflexivity].
    apply NumberFacts.Math_max_number; [reflexivity|].
    apply (NumberFacts.mul_number _ 0.00002 false 5902958103587057 (-68) eq_refl).
    apply or_zero_number.
  - intros ->. reflexivity.
Qed.

Section Searches.

Variable parseFloat : string -> float.
Variable trim : string -> string.
Variable toLowerCase : string -> string.
Variable includes : string -> string -> bool.
Variable Number_toString : float -> string.
Variable Number_toFixed : float -> nat -> string.

(** The coordinate search either rejects its input, and then leaves the
    target where it was and reports an error, or moves the target to the
    parsed position, which is then on the globe: a latitude between -90 and
    90 and a longitude between -180 and 180. *)
Theorem coordinate_search_in_range (latitude longitude : string)
  (state : SearchState) :
  let after := handleCoordinateSearch parseFloat latitude longitude state in
  let lat := parseFloat latitude in
  let lng := parseFloat longitude in
  (error after <> None /\ targetCoordinates after = targetCoordinates state) \/
  (error after = None /\
   targetCoordinates after = Some (lat, lng) /\
   (-90 <=? lat)%float = true /\ (lat <=? 90)%float = true /\
   (-180 <=? lng)%float = true /\ (lng <=? 180)%float = true).
Proof.
  intros after lat lng. unfold after, handleCoordinateSearch.
  fold lat. fold lng.
  destruct (is_nan lat) eqn:Hlat; simpl; [left; split; [discriminate | reflexivity]|].
  destruct (is_nan lng) eqn:Hlng; simpl; [left; split; [discriminate | reflexivity]|].
  destruct (lat <? -90)%float eqn:H1; simpl;
    [left; split; [discriminate | reflexivity]|].
  destruct (90 <? lat)%float eqn:H2; simpl;
    [left; split; [discriminate | reflexivity]|].
  destruct (lng <? -180)%float eqn:H3; simpl;
    [left; split; [discriminate | reflexivity]|].
  destruct (180 <? lng)%float eqn:H4; simpl;
    [left; split; [discriminate | reflexivity]|].
  right. repeat split; apply NumberFacts.ltb_false_leb;
    assumption || reflexivity.
Qed.

(** A text search only narrows the data: what it keeps are locations of the
    data, in their order and no more of them; so on data of at most 100
    points the render list of any search is the search result itself, never
    clustered. *)
Theorem search_narrows (searchTerm : string) (allLocations : list Location)
  (mapZoom : Z) :
  let filtered := searchFilter trim toLowerCase includes searchTerm allLocations in
  (exists keep, filtered = filter keep allLocations) /\
  incl filtered allLocations /\
  length filtered <= length allLocations /\
  (length allLocations <= 100 ->
   locationsToRender Number_toString Number_toFixed filtered mapZoom
   = Some filtered).
Proof.
  intros filtered.
  assert (Hkeep : exists keep, filtered = filter keep allLocations).
  { unfold filtered, searchFilter. destruct (String.eqb _ _).
    - exists (fun _ => true). symmetry. apply forallb_filter_id.
      apply forallb_forall. reflexivity.
    - eexists. reflexivity. }
  destruct Hkeep as [keep Hkeep].
  assert (Hlen : length filtered <= length allLocations)
    by (rewrite Hkeep; apply filter_length_le).
  split; [eauto|]. split; [rewrite Hkeep; apply incl_filter|].
  split; [assumption|]. intros Hsmall.
  unfold locationsToRender, shouldUseCluster.
  destruct (Nat.ltb_spec 100 (length filtered)); [lia | reflexivity].
Qed.

End Searches.

(** The list shows a prefix of the locations, all of them once "Show All"
    is on; the button is there exactly when the locations outnumber the
    limit of 50, and the notice "Showing 50 of N points" exactly when some
    locations are left out, in which case 50 are shown indeed. *)
Theorem list_display (showAll : bool) (locations : list Location) :
  let displayed := displayedLocations showAll locations in
  (exists hidden, locations = displayed ++ hidden) /\
  (showAll = true -> displayed = locations) /\
  (showAllButton locations = true <-> 50 < length locations) /\
  (showingNotice showAll locations = true <->
   length displayed < length locations) /\
  (showingNotice showAll locations = true -> length displayed = 50).
Proof.
  intros displayed. unfold displayed, displayedLocations, showAllButton,
    showingNotice.
  change (displayLimit <? length locations)%nat
    with (50 <? length locations)%nat.
  pose proof (length_firstn displayLimit locations) as Hlen.
  pose proof (firstn_skipn displayLimit locations) as Hsplit.
  change (length (firstn displayLimit locations)
          = Nat.min 50 (length locations)) in Hlen.
  destruct (Nat.ltb_spec 50 (length locations)) as [Hbig|Hsmall];
    destruct showAll; cbn [negb andb].
  - split; [exists []; now rewrite app_nil_r|]. split; [reflexivity|].
    split; [tauto|]. split; [split; [discriminate | lia] | discriminate].
  - split; [exists (skipn displayLimit locations); now symmetry|].
    split; [discriminate|]. split; [tauto|].
    rewrite Hlen. split; [split; [lia | reflexivity] | lia].
  - split; [exists []; now rewrite app_nil_r|]. split; [reflexivity|].
    split; [split; [discriminate | lia]|].
    split; [split; [discriminate | lia] | discriminate].
  - split; [exists (skipn displayLimit locations); now symmetry|].
    split; [discriminate|]. split; [split; [discriminate | lia]|].
    rewrite Hlen. split; [split; [discriminate | lia] | discriminate].
Qed.

(** * Examples *)

Lemma stations_GeoPoint : Forall GeoPoint stations.
Proof. repeat constructor. Qed.

Lemma grid_cell_size_witness :
  stations <> [] /\
  Forall (fun point => is_finite (lat point) = true /\ is_finite (lng point) = true)
    stations /\
  (exists largest smallest,
      In largest stations /\ In smallest stations /\
      latRange stations = (lat largest - lat smallest)%float /\
      Forall (fun point =>
                (lat smallest <=? lat point)%float = true /\
                (lat point <=? lat largest)%float = true) stations) /\
  zoomFactor 10 = 4%float /\
  is_nan (gridSize stations 10) = false /\
  (0.0005 <=? gridSize stations 10)%float = true.
Proof.
  assert (Hne : stations <> []) by discriminate.
  assert (Hfin : Forall (fun point => is_finite (lat point) = true /\
                                      is_finite (lng point) = true) stations)
    by (repeat constructor).
  assert (Hnum : Forall (fun point => is_nan (lat point) = false) stations)
    by (repeat constructor).
  pose proof (grid_cell_size stations 10) as H. cbv zeta in H.
  destruct H as (Hlat & _ & _ & _ & _ & _ & Hzoom & _ & _ & _ & Hfloor).
  split; [exact Hne|]. split; [exact Hfin|].
  split; [exact (Hlat Hne Hnum)|].
  split; [exact (Hzoom ltac:(lia))|].
  exact (Hfloor Hfin ltac:(lia)).
Defined.

Lemma conservation_witness :
  Forall GeoPoint stations /\
  exists items,
    clusterNearbyMarkers Printer.toString Printer.toFixed stations 5 = Some items /\
    Permutation (recovered items) stations /\
    Permutation (map id (recovered items)) (map id stations).
Proof.
  split; [exact stations_GeoPoint|].
  apply (conservation Printer.toString Printer.toFixed stations 5).
  exact stations_GeoPoint.
Defined.

Lemma zoom_override_witness :
  let bucket := firstn 1 sampleLocations ++ nearKolkata in
  In ("45145_176727", bucket) (partition Printer.toString stations 12) /\
  length bucket = 3 /\
  exists items,
    clusterNearbyMarkers Printer.toString Printer.toFixed stations 12 = Some items /\
    (exists before after, items = before ++ bucket ++ after) /\
    Forall (fun point => isCluster point = false) bucket /\
    (forall item, In item items -> isCluster item = true ->
                  clusterPoints item <> Some bucket).
Proof.
  intros bucket.
  assert (Hin : In ("45145_176727", bucket) (partition Printer.toString stations 12))
    by (vm_compute; left; reflexivity).
  split; [exact Hin|]. split; [reflexivity|].
  apply (zoom_override Printer.toString Printer.toFixed stations 12
           "45145_176727" bucket stations_GeoPoint);
    [lia | exact Hin | right; reflexivity].
Defined.


Lemma member_list_preserved_witness :
  exists items,
    clusterNearbyMarkers Printer.toString Printer.toFixed stations 5 = Some items /\
    forall item,
      In item items -> isCluster item = true ->
      exists k,
        In (k, filter (fun location =>
                         String.eqb (cellKey Printer.toString
                                       (gridSize stations 5) location) k)
                 stations)
           (partition Printer.toString stations 5) /\
        clusterPoints item =
        Some (filter (fun location =>
                        String.eqb (cellKey Printer.toString
                                      (gridSize stations 5) location) k)
                stations).
Proof.
  apply (member_list_preserved Printer.toString Printer.toFixed stations 5).
  exact stations_GeoPoint.
Defined.

Lemma output_size_witness :
  exists items,
    clusterNearbyMarkers Printer.toString Printer.toFixed stations 5 = Some items /\
    length items <= length stations /\
    (length items < length stations <->
     exists item, In item items /\ isCluster item = true).
Proof.
  apply (output_size Printer.toString Printer.toFixed stations 5).
  exact stations_GeoPoint.
Defined.

Lemma gauges_GeoPoint : Forall GeoPoint gauges.
Proof. repeat constructor. Qed.

Lemma cluster_statistics_witness :
  Forall GeoPoint gauges /\
  In ("45000_176500"%string, gauges) (partition Printer.toString gauges 5) /\
  exists items item,
    clusterNearbyMarkers Printer.toString Printer.toFixed gauges 5 = Some items /\
    In item items /\ isCluster item = true /\
    clusterPoints item = Some gauges /\
    rainfall_rate item = Some 2%float /\
    reflectivity item = Some ((12 + 18 + 0) / 3)%float.
Proof.
  split; [exact gauges_GeoPoint|].
  assert (Hbucket : In ("45000_176500"%string, gauges)
                      (partition Printer.toString gauges 5))
    by (vm_compute; left; reflexivity).
  split; [exact Hbucket|].
  destruct (cluster_statistics Printer.toString Printer.toFixed gauges 5
              gauges_GeoPoint) as (items & Hcall & _ & _ & Hscenario).
  exists items.
  destruct (Hscenario "45000_176500"%string
              (gauge "1" (Some 12%float) 1) (gauge "2" (Some 18%float) 2)
              (gauge "3" None 3) 12%float 18%float
              Hbucket ltac:(lia) eq_refl eq_refl eq_refl
              (or_introl eq_refl)) as (item & Hitem).
  exists item. split; assumption.
Defined.

(** With a reflectivity that is not a Number in the cell, the mean of the
    members' reflectivities, 0 for a missing one, is NaN, and the cluster
    reports 5: the mean of 0 and 10. *)
Lemma cluster_statistics_counterexample :
  exists item points,
    clusterNearbyMarkers Printer.toString Printer.toFixed faulty 5
    = Some [item] /\
    isCluster item = true /\
    clusterPoints item = Some points /\
    map reflectivity points = [Some nan; Some 10%float] /\
    reflectivity item = Some 5%float /\
    mean (map (fun loc => value_or_zero (reflectivity loc)) points) = nan /\
    reflectivity item
    <> Some (mean (map (fun loc => value_or_zero (reflectivity loc)) points)).
Proof.
  eexists. eexists. split; [vm_compute; reflexivity|].
  repeat (split; [reflexivity|]).
  intros H.
  apply (f_equal (fun x => match x with Some v => is_nan v | None => false end)) in H.
  discriminate H.
Qed.

Lemma render_policy_witness :
  (length sampleLocations = 5 /\
   locationsToRender Printer.toString Printer.toFixed sampleLocations 8
   = Some sampleLocations) /\
  (length crowd = 105 /\
   exists items,
     locationsToRender Printer.toString Printer.toFixed crowd 8 = Some items).
Proof.
  split; (split; [reflexivity|]).
  - apply (proj1 (render_policy Printer.toString Printer.toFixed sampleLocations 8)).
    simpl. lia.
  - apply (proj2 (render_policy Printer.toString Printer.toFixed crowd 8)).
    apply Nat.ltb_lt. reflexivity.
Defined.


Lemma sample_keys_distinct :
  NoDup (map (cellKey Printer.toString (gridSize sampleLocations 5))
           sampleLocations).
Proof.
  vm_compute. repeat (constructor; [simpl; intuition discriminate|]). constructor.
Qed.

Lemma separated_points_witness :
  clusterNearbyMarkers Printer.toString Printer.toFixed sampleLocations 5
  = Some sampleLocations.
Proof.
  apply (separated_points Printer.toString Printer.toFixed sampleLocations 5).
  exact sample_keys_distinct.
Defined.

Lemma one_cell_one_cluster_witness :
  let locations := firstn 1 sampleLocations ++ nearKolkata in
  exists item,
    clusterNearbyMarkers Printer.toString Printer.toFixed locations 10
    = Some [item] /\
    clusterPoints item = Some locations /\
    clusterSize item = Some (length locations) /\
    isCluster item = true.
Proof.
  refine (one_cell_one_cluster Printer.toString Printer.toFixed
            (hd (mkLocation "" "" 0 0 "" None None None None None None)
               sampleLocations)
            nearKolkata 10 _ _ _).
  - intros point [<-|[<-|[]]]; vm_compute; reflexivity.
  - discriminate.
  - left. lia.
Defined.

Lemma low_zoom_invariance_witness :
  gridSize stations 3 = gridSize stations 8 /\
  partition Printer.toString stations 3 = partition Printer.toString stations 8 /\
  clusterNearbyMarkers Printer.toString Printer.toFixed stations 3
  = clusterNearbyMarkers Printer.toString Printer.toFixed stations 8.
Proof.
  apply (low_zoom_invariance Printer.toString Printer.toFixed stations 3 8); lia.
Defined.

Lemma marker_counts_witness :
  Forall GeoPoint stations /\
  exists items,
    clusterNearbyMarkers Printer.toString Printer.toFixed stations 5 = Some items /\
    list_sum (map represented items) = length stations /\
    list_sum (map represented (drawnMarkers items)) <= length stations /\
    (list_sum (map represented (drawnMarkers items)) = length stations <->
     drawnMarkers items = items) /\
    drawnMarkers items = items.
Proof.
  split; [exact stations_GeoPoint|].
  destruct (proj1 (marker_counts Printer.toString Printer.toFixed stations 5
                     stations_GeoPoint))
    as (items & Hcall & Hsum & Hle & Hiff & Hall).
  exists items. repeat (split; [assumption|]).
  apply Hall; [repeat constructor | vm_compute; reflexivity].
Defined.

Lemma crowd_GeoPoint : Forall GeoPoint crowd.
Proof. repeat constructor. Qed.

Lemma detail_zoom_clusters_witness :
  exists items,
    clusterNearbyMarkers Printer.toString Printer.toFixed crowd 12 = Some items /\
    (forall item points,
        (12 <= 12)%Z -> In item items -> isCluster item = true ->
        clusterPoints item = Some points -> 4 <= length points) /\
    ((forall item, In item items -> isCluster item = false) ->
     Permutation items crowd).
Proof.
  apply (detail_zoom_clusters Printer.toString Printer.toFixed crowd 12).
  exact crowd_GeoPoint.
Defined.

Lemma cluster_identity_witness :
  exists items,
    clusterNearbyMarkers Printer.toString Printer.toFixed stations 5 = Some items /\
    forall item,
      In item items -> isCluster item = true ->
      exists first others,
        clusterPoints item = Some (first :: others) /\
        In first stations /\
        id item
        = ("cluster_" ++ id first ++ "_" ++ String_of_nat (S (length others)))%string /\
        name item
        = ("Cluster (" ++ String_of_nat (S (length others)) ++ " points)")%string /\
        category item = "cluster" /\
        description item <> None.
Proof.
  apply (cluster_identity Printer.toString Printer.toFixed stations 5).
  exact stations_GeoPoint.
Defined.

Lemma statistics_of_any_measurements_witness :
  exists items,
    clusterNearbyMarkers Printer.toString Printer.toFixed stations 5 = Some items /\
    forall item points,
      In item items -> isCluster item = true ->
      clusterPoints item = Some points ->
      exists refl rain alt : Location -> float,
        reflectivity item = Some (mean (map refl points)) /\
        rainfall_rate item = Some (mean (map rain points)) /\
        altitude item = Some (mean (map alt points)) /\
        forall loc,
          let agrees (x : option float) (used : float) :=
            match x with
            | None => used = 0%float
            | Some v => if is_nan v then used = 0%float
                        else (used =? v)%float = true
            end in
          agrees (reflectivity loc) (refl loc) /\
          agrees (rainfall_rate loc) (rain loc) /\
          agrees (altitude loc) (alt loc).
Proof.
  apply (statistics_of_any_measurements Printer.toString Printer.toFixed stations 5).
  exact stations_GeoPoint.
Defined.

Lemma zoom_factor_values_witness :
  zoomFactor 5 = 1%float /\
  zoomFactor 12 = Number_of_Z (2 ^ (12 - 8)) /\
  zoomFactor 2000 = infinity.
Proof.
  split; [|split].
  - apply (proj1 (zoom_factor_values 5)). lia.
  - apply (proj1 (proj2 (zoom_factor_values 12))). lia.
  - apply (proj2 (proj2 (zoom_factor_values 2000))). lia.
Defined.

Lemma coincident_points_grid_witness :
  let first := hd (mkLocation "" "" 0 0 "" None None None None None None)
                 sampleLocations in
  latRange [first; first] = 0%float /\
  lngRange [first; first] = 0%float /\
  gridSize [first; first] 12 = 0.0005%float.
Proof.
  intros first.
  apply (coincident_points_grid first [first] 12); try reflexivity.
  repeat constructor.
Defined.

Lemma globe_altitude_floor_witness :
  map Globe.pointAltitude (Globe.pointsData (firstn 1 nearKolkata))
  = [0.001%float].
Proof.
  apply (proj2 (globe_altitude_floor
                  (hd (mkLocation "" "" 0 0 "" None None None None None None)
                     nearKolkata))).
  reflexivity.
Defined.
